(** * Definition lookup and definition preview of Nuclide

    A shallow embedding of

    - [pkg/nuclide-definition-preview-rpc/lib/DefinitionPreviewService.js]
      ([getDefinitionPreview], the preview extractor), and
    - [pkg/nuclide-graphql-language-service/lib/interfaces/getDefinition.js]
      (the position resolver for GraphQL fragment spreads and definition
      nodes),

    together with the properties the specification states about them. *)

From Stdlib Require Import String Ascii.
From Stdlib Require Import List Arith Bool NArith Lia.
Import ListNotations.
Open Scope string_scope.
Open Scope list_scope.
Open Scope nat_scope.

(** ** JavaScript strings

    A JavaScript string is a sequence of UTF-16 code units.  [length],
    [split], [charCodeAt] and the regular expression [\s] all work on code
    units, so a string is embedded as the list of its code units. *)

Definition char16 := N.
Definition jsstring := list char16.

Definition of_string (s : string) : jsstring :=
  map N_of_ascii (list_ascii_of_string s).

Definition LF : char16 := 10%N.
Definition OPEN_PAREN : char16 := 40%N.
Definition CLOSE_PAREN : char16 := 41%N.

Definition jsstring_eqb (a b : jsstring) : bool :=
  if list_eq_dec N.eq_dec a b then true else false.

(** [s.split('\n')]: never the empty array, and no piece holds a line feed. *)
Fixpoint split_lines (s : jsstring) : list jsstring :=
  match s with
  | [] => [[]]
  | c :: s' =>
      if N.eqb c LF then [] :: split_lines s'
      else match split_lines s' with
           | l :: ls => (c :: l) :: ls
           | [] => [[c]]
           end
  end.

(** [arr.join('\n')]. *)
Fixpoint join_lines (l : list jsstring) : jsstring :=
  match l with
  | [] => []
  | [x] => x
  | x :: rest => x ++ LF :: join_lines rest
  end.

(** The character class [\s] of ECMAScript regular expressions: WhiteSpace
    and LineTerminator code units. *)
Definition is_whitespace (c : char16) : bool :=
  ((9 <=? c) && (c <=? 13) || (c =? 32) || (c =? 160) || (c =? 5760)
   || (8192 <=? c) && (c <=? 8202) || (c =? 8232) || (c =? 8233)
   || (c =? 8239) || (c =? 8287) || (c =? 12288) || (c =? 65279))%N.

Fixpoint leading_whitespace (s : jsstring) : jsstring :=
  match s with
  | c :: s' => if is_whitespace c then c :: leading_whitespace s' else []
  | [] => []
  end.

(** ** Results of a call

    A call either returns a value or throws; for the [async] functions a
    throw is the rejection of the returned promise. *)

Inductive Error : Type :=
| InvariantViolation (message : string)
| TypeError
| IOError.

Inductive Outcome (A : Type) : Type :=
| Return (a : A)
| Throw (e : Error).
Arguments Return {A} a.
Arguments Throw {A} e.

Definition obind {A B} (o : Outcome A) (k : A -> Outcome B) : Outcome B :=
  match o with
  | Return a => k a
  | Throw e => Throw e
  end.

(** [invariant(value, message)] on a nullable reference. *)
Definition invariant {A} (value : option A) (message : string) : Outcome A :=
  match value with
  | Some a => Return a
  | None => Throw (InvariantViolation message)
  end.

(** ** Data model *)

Record Position : Type := mkPosition { row : nat; column : nat }.

Record Range : Type := mkRange { range_start : Position; range_end : Position }.

Definition Uri := jsstring.

Record Definition_ : Type := mkDefinition {
  path : Uri;
  position : Position;
  range : Range;
  name : jsstring;
  language : jsstring;
  projectRoot : Uri
}.

(** ** The preview extractor (DefinitionPreviewService.js) *)

Module Preview.

Definition MAX_PREVIEW_LINES : nat := 10.

(** [WHITESPACE_REGEX.exec(line)[0].length] with [WHITESPACE_REGEX = /^\s*/]:
    the star is greedy, the match is the longest whitespace prefix. *)
Definition getIndentLevel (line : jsstring) : nat :=
  length (leading_whitespace line).

(** Modelled from the spec: [countOccurrences] of nuclide-commons/string is
    not among the sources at hand; the spec has it count the occurrences of
    one character ("a running count of ( characters and ) characters"). *)
Definition countOccurrences (haystack : jsstring) (char : char16) : nat :=
  length (filter (N.eqb char) haystack).

(** The smallest indentation among the non-empty lines; 0 when every line
    is empty. *)
Definition min_indent (ls : list jsstring) : nat :=
  match map getIndentLevel (filter (fun l => negb (Nat.eqb (length l) 0)) ls) with
  | [] => 0
  | n :: ns => fold_right Nat.min n ns
  end.

(** Modelled from the spec: [dedent] is an external package, not among the
    sources at hand; the spec has it "remove the minimal common leading
    indentation shared by all non-empty lines". *)
Definition dedent (s : jsstring) : jsstring :=
  let ls := split_lines s in
  join_lines (map (skipn (min_indent ls)) ls).

(** [lines[i]].  Out of range the array yields [undefined], which
    [RegExp.prototype.exec] turns into the string "undefined". *)
Definition line_at (lines : list jsstring) (i : nat) : jsstring :=
  nth i lines (of_string "undefined").

(** The [for] loop of [getDefinitionPreview].  Each unfolding is one test of
    the loop condition followed by one run of the body; [fuel] bounds the
    number of unfoldings.  The loop variable runs from [start] and stays
    below [start + MAX_PREVIEW_LINES], so [MAX_PREVIEW_LINES] unfoldings
    are enough (lemma [scan_fuel] below). *)
Section Loop.
Variable lines : list jsstring.
Variable start : nat.
Variable initialIndentLevel : nat.

Fixpoint scan (fuel i openParenCount closedParenCount : nat)
         (buffer : list jsstring) : list jsstring :=
  match fuel with
  | 0 => buffer
  | S fuel' =>
      if (i <? start + MAX_PREVIEW_LINES) && (i <? length lines) then
        let line := line_at lines i in
        let indentLevel := getIndentLevel line in
        let openParenCount := openParenCount + countOccurrences line OPEN_PAREN in
        let closedParenCount := closedParenCount + countOccurrences line CLOSE_PAREN in
        let buffer := buffer ++ [line] in
        if (indentLevel <=? initialIndentLevel)
           && (openParenCount =? closedParenCount)
        then buffer
        else scan fuel' (S i) openParenCount closedParenCount buffer
      else buffer
  end.
End Loop.

(** The lines pushed on [buffer] for a file split into [lines]. *)
Definition preview_buffer (lines : list jsstring) (start : nat) : list jsstring :=
  let initialIndentLevel := getIndentLevel (line_at lines start) in
  scan lines start initialIndentLevel MAX_PREVIEW_LINES start 0 0 [].

(** The file system as [fs.readFile] sees it: the decoded text of a file, or
    nothing where the read fails. *)
Definition FileSystem := Uri -> option jsstring.

Definition readFile (fs : FileSystem) (p : Uri) : Outcome jsstring :=
  match fs p with
  | Some contents => Return contents
  | None => Throw IOError
  end.

Definition getDefinitionPreview (fs : FileSystem) (definition : Definition_)
  : Outcome jsstring :=
  obind (readFile fs (path definition)) (fun contents =>
  let lines := split_lines contents in
  let start := row (position definition) in
  Return (dedent (join_lines (preview_buffer lines start)))).

End Preview.

(** ** The position resolver (getDefinition.js) *)

Module GraphQL.

Definition LANGUAGE : jsstring := of_string "GraphQL".

(** *** Syntax nodes

    The fields the resolver reads.  A fragment definition always has a name
    node (the filter reads [definition.name.value] unguarded); the name of
    an operation definition and the [loc] of a name node may be null, and
    the code checks both with [invariant].  The span of a definition node
    or of a spread is handed to [locToRange] as it is. *)

Record Location : Type := mkLocation { loc_start : nat; loc_end : nat }.

Record NameNode : Type := mkNameNode {
  name_loc : option Location;
  value : jsstring
}.

Record FragmentSpreadNode : Type := mkFragmentSpread {
  spread_loc : Location;
  spread_name : NameNode
}.

Record FragmentDefinitionNode : Type := mkFragmentDefinition {
  fragment_loc : Location;
  fragment_name : NameNode
}.

Record OperationDefinitionNode : Type := mkOperationDefinition {
  operation_loc : Location;
  operation_name : option NameNode
}.

(** [FragmentDefinitionNode | OperationDefinitionNode]. *)
Inductive DefinitionNode : Type :=
| FragmentDefinition (f : FragmentDefinitionNode)
| OperationDefinition (o : OperationDefinitionNode).

Definition definition_name (d : DefinitionNode) : option NameNode :=
  match d with
  | FragmentDefinition f => Some (fragment_name f)
  | OperationDefinition o => operation_name o
  end.

Definition definition_loc (d : DefinitionNode) : Location :=
  match d with
  | FragmentDefinition f => fragment_loc f
  | OperationDefinition o => operation_loc o
  end.

Record FragmentInfo : Type := mkFragmentInfo {
  filePath : option Uri;
  content : jsstring;
  definition : FragmentDefinitionNode
}.

Record DefinitionQueryResult : Type := mkResult {
  queryRange : list Range;
  definitions : list Definition_
}.

(** *** utils/Range *)

Definition count_newlines (s : jsstring) : nat :=
  length (filter (N.eqb LF) s).

(** Index of the last line feed of [s], if there is one. *)
Fixpoint lastIndexOf_LF (s : jsstring) : option nat :=
  match s with
  | [] => None
  | c :: s' =>
      match lastIndexOf_LF s' with
      | Some k => Some (S k)
      | None => if N.eqb c LF then Some 0 else None
      end
  end.

(** Modelled from the spec: utils/Range.js is not among the sources at hand.
    The spec has [offsetToPoint] "count newline characters before the offset
    for the row, and the distance from the preceding newline (or text start)
    to the offset for the column"; its scenario (name at offset 20 of a text
    whose only line feed is at 13 gives column 6) fixes the distance as the
    number of characters strictly between the line feed and the offset. *)
Definition offsetToPoint (text : jsstring) (offset : nat) : Position :=
  let before := firstn offset text in
  {| row := count_newlines before;
     column := match lastIndexOf_LF before with
               | Some k => offset - k - 1
               | None => offset
               end |}.

(** Modelled from the spec: utils/Range.js is not among the sources at hand.
    The spec has [locToRange] convert a "location span into start/end
    positions using the same offset-to-position conversion". *)
Definition locToRange (text : jsstring) (loc : Location) : Range :=
  {| range_start := offsetToPoint text (loc_start loc);
     range_end := offsetToPoint text (loc_end loc) |}.

(** *** The definition builder *)

Definition getDefinitionForFragmentDefinition
  (path : Uri) (text : jsstring) (definition : DefinitionNode)
  : Outcome Definition_ :=
  let name := definition_name definition in
  obind (invariant name "Name node expected.") (fun name =>
  let nameLoc := name_loc name in
  obind (invariant nameLoc "Location for Name node expected.") (fun nameLoc =>
  Return {| path := path;
            position := offsetToPoint text (loc_start nameLoc);
            range := locToRange text (definition_loc definition);
            name := value name;
            language := LANGUAGE;
            projectRoot := path |})).

(** Reading [loc.start] and [loc.end] of a nullable location, as
    [locToRange] does with its argument: a [TypeError] on null. *)
Definition locToRange_nullable (text : jsstring) (loc : option Location)
  : Outcome Range :=
  match loc with
  | Some l => Return (locToRange text l)
  | None => Throw TypeError
  end.

(** *** Resolving a definition node

    The object literal is built field by field: the builder runs (and may
    throw) before [name.loc] is handed to [locToRange]. *)
Definition getDefinitionQueryResultForDefinitionNode
  (path : Uri) (text : jsstring) (definition : DefinitionNode)
  : Outcome DefinitionQueryResult :=
  let name := definition_name definition in
  obind (invariant name "Name node expected.") (fun name =>
  obind (getDefinitionForFragmentDefinition path text definition) (fun d =>
  obind (locToRange_nullable text (name_loc name)) (fun r =>
  Return {| definitions := [d];
            queryRange := [r] |}))).

(** *** Resolving a fragment spread

    This function compares arrays with [===] and writes to
    [process.stderr], so it runs in a world that hands out array identities
    and records what was written. *)

Record World : Type := mkWorld {
  next_ref : nat;
  stderr : list jsstring
}.

(** An array is an object: an identity and its elements. *)
Record Array (A : Type) : Type := mkArray {
  ref : nat;
  elems : list A
}.
Arguments mkArray {A} ref elems.
Arguments ref {A} a.
Arguments elems {A} a.

Definition M (A : Type) : Type := World -> Outcome A * World.

Definition ret {A} (a : A) : M A := fun w => (Return a, w).

Definition bind {A B} (m : M A) (k : A -> M B) : M B :=
  fun w =>
    match m w with
    | (Return a, w') => k a w'
    | (Throw e, w') => (Throw e, w')
    end.

Notation "x <- m ;; k" := (bind m (fun x => k))
  (at level 61, m at next level, right associativity).
Notation "m ;;; k" := (bind m (fun _ => k))
  (at level 61, right associativity).

Definition lift {A} (o : Outcome A) : M A := fun w => (o, w).

(** Every array literal and every array-returning method makes a new
    object. *)
Definition new_array {A} (l : list A) : M (Array A) :=
  fun w => (Return {| ref := next_ref w; elems := l |},
            {| next_ref := S (next_ref w); stderr := stderr w |}).

(** [a === b] on two arrays: identity of the objects. *)
Definition strict_equal {A} (a b : Array A) : bool :=
  Nat.eqb (ref a) (ref b).

Definition stderr_write (s : jsstring) : M unit :=
  fun w => (Return tt,
            {| next_ref := next_ref w; stderr := stderr w ++ [s] |}).

Fixpoint mapM {A B} (f : A -> M B) (l : list A) : M (list B) :=
  match l with
  | [] => ret []
  | x :: l' => y <- f x ;; ys <- mapM f l' ;; ret (y :: ys)
  end.

(** [arr.filter(p)] and [arr.map(f)]. *)
Definition Array_filter {A} (p : A -> bool) (l : list A) : M (Array A) :=
  new_array (filter p l).

Definition Array_map {A B} (f : A -> M B) (arr : Array A) : M (Array B) :=
  ys <- mapM f (elems arr) ;; new_array ys.

(** [filePath || '']: the empty string for a missing or empty path. *)
Definition or_empty (filePath : option Uri) : Uri :=
  match filePath with
  | Some (c :: p) => c :: p
  | Some [] => []
  | None => []
  end.

Definition getDefinitionQueryResultForFragmentSpread
  (text : jsstring) (fragment : FragmentSpreadNode)
  (dependencies : list FragmentInfo) : M DefinitionQueryResult :=
  let name := value (spread_name fragment) in
  defNodes <- Array_filter
                (fun fi => jsstring_eqb (value (fragment_name (definition fi))) name)
                dependencies ;;
  empty <- new_array [] ;;
  if strict_equal defNodes empty then
    stderr_write (of_string "Definition not found for GraphQL fragment " ++ name) ;;;
    ret {| queryRange := []; definitions := [] |}
  else
    definitions <- Array_map
                     (fun fi =>
                        lift (getDefinitionForFragmentDefinition
                                (or_empty (filePath fi)) (content fi)
                                (FragmentDefinition (definition fi))))
                     defNodes ;;
    queryRange <- Array_map
                    (fun _ => ret (locToRange text (spread_loc fragment)))
                    definitions ;;
    ret {| definitions := elems definitions;
           queryRange := elems queryRange |}.

End GraphQL.

(** ** Vocabulary of the properties *)

Import Preview GraphQL.

(** The [k] lines of the file from line [start] on. *)
Definition scanned (lines : list jsstring) (start k : nat) : list jsstring :=
  firstn k (skipn start lines).

(** Occurrences of [c] over a run of lines. *)
Definition total (c : char16) (ls : list jsstring) : nat :=
  list_sum (map (fun l => countOccurrences l c) ls).

(** The stop test of the heuristic once line [start + k] has been appended:
    indentation back at the initial level, and as many ")" as "(" over all
    the lines scanned so far. *)
Definition stops_at (lines : list jsstring) (start k : nat) : bool :=
  (getIndentLevel (line_at lines (start + k))
     <=? getIndentLevel (line_at lines start))
  && (total OPEN_PAREN (scanned lines start (S k))
        =? total CLOSE_PAREN (scanned lines start (S k))).

Definition no_LF (l : jsstring) : Prop := ~ In LF l.

(** A fragment definition declares the name a spread refers to. *)
Definition declares (fragment : FragmentSpreadNode) (fi : FragmentInfo) : bool :=
  jsstring_eqb (value (fragment_name (definition fi)))
               (value (spread_name fragment)).

Definition has_name_loc (fi : FragmentInfo) : Prop :=
  name_loc (fragment_name (definition fi)) <> None.

(** The builder as the spread resolver calls it on a known fragment. *)
Definition build_for (fi : FragmentInfo) : Outcome Definition_ :=
  getDefinitionForFragmentDefinition
    (or_empty (filePath fi)) (content fi) (FragmentDefinition (definition fi)).

(** A callback that may throw, mapped over a list in order. *)
Fixpoint mapO {A B} (f : A -> Outcome B) (l : list A) : Outcome (list B) :=
  match l with
  | [] => Return []
  | x :: l' =>
      obind (f x) (fun y => obind (mapO f l') (fun ys => Return (y :: ys)))
  end.

(** *** Sample inputs *)

Definition origin : Position := {| row := 0; column := 0 |}.

(** A definition as a definition provider hands it to the preview: only
    [path] and [position.row] are read. *)
Definition definition_at (p : Uri) (r : nat) : Definition_ :=
  {| path := p;
     position := {| row := r; column := 0 |};
     range := {| range_start := origin; range_end := origin |};
     name := [];
     language := [];
     projectRoot := p |}.

Definition sample_call : jsstring :=
  join_lines [of_string "foo(a,"; of_string "    b)"; of_string "next()"; of_string "more"].

Definition sample_fs : FileSystem :=
  fun p => if jsstring_eqb p (of_string "a.js") then Some sample_call else None.

Definition other_fs : FileSystem :=
  fun p => if jsstring_eqb p (of_string "a.js") then Some sample_call
           else Some (of_string "unrelated").

(** Twelve lines "x(", none of which closes the parenthesis. *)
Definition sample_open : jsstring := join_lines (repeat (of_string "x(") 12).

Definition open_fs : FileSystem := fun _ => Some sample_open.

(** The text of the spec's scenario, [query A { x }] and [query B { y }] on
    two lines, and the nodes of its second query. *)
Definition two_queries : jsstring :=
  join_lines [of_string "query A { x }"; of_string "query B { y }"].

Definition name_B : NameNode :=
  {| name_loc := Some {| loc_start := 20; loc_end := 21 |};
     value := of_string "B" |}.

Definition query_B : DefinitionNode :=
  OperationDefinition
    {| operation_loc := {| loc_start := 14; loc_end := 27 |};
       operation_name := Some name_B |}.

(** A fragment [F] declared in one file and spread in another. *)
Definition fragment_text : jsstring := of_string "fragment F on T { x }".

Definition fragment_F : FragmentDefinitionNode :=
  {| fragment_loc := {| loc_start := 0; loc_end := 21 |};
     fragment_name := {| name_loc := Some {| loc_start := 9; loc_end := 10 |};
                         value := of_string "F" |} |}.

Definition info_F (p : option Uri) : FragmentInfo :=
  {| filePath := p; content := fragment_text; definition := fragment_F |}.

Definition spread_text : jsstring := of_string "query Q { ...F }".

Definition spread_of (n : string) : FragmentSpreadNode :=
  {| spread_loc := {| loc_start := 10; loc_end := 14 |};
     spread_name := {| name_loc := Some {| loc_start := 13; loc_end := 14 |};
                       value := of_string n |} |}.

Definition world0 : World := {| next_ref := 0; stderr := [] |}.

(** ** The Buck task runner (BuckTaskRunner.js)

    The parts of the runner that compute values: which tasks are enabled,
    what [serialize] saves and what the store starts from, and what
    [runTask] checks, logs and schedules.  The rx and redux plumbing around
    them is not embedded. *)

Module Buck.

Set Implicit Arguments.

Record Task : Type := mkTask {
  type : jsstring;
  label : jsstring;
  description : jsstring;
  icon : jsstring
}.

Definition TASKS : list Task :=
  [ {| type := of_string "build";
       label := of_string "Build";
       description := of_string "Build the specified Buck target";
       icon := of_string "tools" |};
    {| type := of_string "run";
       label := of_string "Run";
       description := of_string "Run the specfied Buck target";
       icon := of_string "triangle-right" |};
    {| type := of_string "test";
       label := of_string "Test";
       description := of_string "Test the specfied Buck target";
       icon := of_string "check" |};
    {| type := of_string "debug";
       label := of_string "Debug";
       description := of_string "Debug the specfied Buck target";
       icon := of_string "nuclicon-debugger" |} ].

(** [s.endsWith(search)]: the last [search.length] code units of [s] are
    [search]; false when [s] is the shorter one. *)
Definition endsWith (s search : jsstring) : bool :=
  if length s <? length search then false
  else jsstring_eqb (skipn (length s - length search) s) search.

Definition shouldEnableTask (taskType ruleType : jsstring) : bool :=
  if jsstring_eqb taskType (of_string "run") then
    endsWith ruleType (of_string "binary")
  else if jsstring_eqb taskType (of_string "debug") then
    endsWith ruleType (of_string "binary") || endsWith ruleType (of_string "test")
  else true.

(** [assert(value)] on a nullable reference, without a message of its own;
    the text Node makes up for the error is not modelled. *)
Definition assert_present {A} (value : option A) : Outcome A :=
  invariant value EmptyString.

(** [assert(value)] on a nullable string: the empty string is falsy too. *)
Definition assert_string (value : option jsstring) : Outcome jsstring :=
  match value with
  | Some (c :: s) => Return (c :: s)
  | Some [] => Throw (InvariantViolation EmptyString)
  | None => Throw (InvariantViolation EmptyString)
  end.

(** A task of [TASKS] with its [disabled] flag: [{...task, disabled}]. *)
Record TaskMetadata : Type := mkTaskMetadata {
  task : Task;
  disabled : bool
}.

(** [Set.prototype.has] on a set of task types. *)
Definition has (set : list jsstring) (x : jsstring) : bool :=
  existsb (jsstring_eqb x) set.

Record Device : Type := mkDevice { device_name : jsstring }.

Record Platform : Type := mkPlatform {
  platform_name : jsstring;
  tasksForDevice : option Device -> list jsstring
}.

Record DeploymentTarget : Type := mkDeploymentTarget {
  platform : Platform;
  device : option Device
}.

Section State.

(** The settings object and the resolved build target are passed around
    untouched; their shape plays no role here. *)
Variable TaskSettings : Type.
Variable ResolvedBuildTarget : Type.

(** The object literal [{}]. *)
Variable noSettings : TaskSettings.

Record ResolvedRuleType : Type := mkResolvedRuleType {
  rule_type : jsstring;
  rule_buildTarget : ResolvedBuildTarget
}.

(** The fields of the application state that this file reads or sets
    ([platformGroups], [platformService] and [platformProviderUi] are only
    stored). *)
Record AppState : Type := mkAppState {
  projectRoot : option jsstring;
  buckRoot : option jsstring;
  isLoadingBuckProject : bool;
  isLoadingRule : bool;
  isLoadingPlatforms : bool;
  buildTarget : jsstring;
  buildRuleType : option ResolvedRuleType;
  selectedDeploymentTarget : option DeploymentTarget;
  taskSettings : TaskSettings;
  lastSessionPlatformName : option jsstring;
  lastSessionDeviceName : option jsstring
}.

(** What [serialize] saves; a missing field and a null one are both
    [None]. *)
Record SerializedState : Type := mkSerializedState {
  serialized_buildTarget : option jsstring;
  serialized_taskSettings : option TaskSettings;
  selectedPlatformName : option jsstring;
  selectedDeviceName : option jsstring
}.

(** The task list [setProjectRoot] computes from a state of the store (the
    function mapped over [storeReady]). *)
Definition taskList (state : AppState) : Outcome (list TaskMetadata) :=
  let buildRuleType := buildRuleType state in
  let selectedDeploymentTarget := selectedDeploymentTarget state in
  let tasksFromPlatform :=
    match selectedDeploymentTarget with
    | Some target => Some (tasksForDevice (platform target) (device target))
    | None => None
    end in
  mapO (fun task =>
          let disabled :=
            isLoadingPlatforms state
            || match buildRuleType with None => true | Some _ => false end in
          obind (if negb disabled then
                   match tasksFromPlatform with
                   | Some set => Return (negb (has set (type task)))
                   | None =>
                       obind (assert_present buildRuleType) (fun rule =>
                       Return (negb (shouldEnableTask (type task) (rule_type rule))))
                   end
                 else Return disabled) (fun disabled =>
          Return {| task := task; disabled := disabled |}))
       TASKS.

(** The state [_getStore] hands to [createStore]. *)
Definition initialState (serializedState : SerializedState) : AppState :=
  {| projectRoot := None;
     buckRoot := None;
     isLoadingBuckProject := false;
     isLoadingRule := false;
     isLoadingPlatforms := false;
     buildTarget := GraphQL.or_empty (serialized_buildTarget serializedState);
     buildRuleType := None;
     selectedDeploymentTarget := None;
     taskSettings := match serialized_taskSettings serializedState with
                     | Some settings => settings
                     | None => noSettings
                     end;
     lastSessionPlatformName := selectedPlatformName serializedState;
     lastSessionDeviceName := selectedDeviceName serializedState |}.

(** The runner, as far as [serialize] looks at it: the state its store
    holds, once the store exists. *)
Record Runner : Type := mkRunner {
  _store : option AppState
}.

Definition serialize (runner : Runner) : option SerializedState :=
  match _store runner with
  | None => None
  | Some state =>
      let (selectedPlatformName, selectedDeviceName) :=
        match selectedDeploymentTarget state with
        | Some target =>
            (Some (platform_name (platform target)),
             match device target with
             | Some d => Some (device_name d)
             | None => None
             end)
        | None =>
            (lastSessionPlatformName state, lastSessionDeviceName state)
        end in
      Some {| serialized_buildTarget := Some (buildTarget state);
              serialized_taskSettings := Some (taskSettings state);
              selectedPlatformName := selectedPlatformName;
              selectedDeviceName := selectedDeviceName |}
  end.

Definition DQUOTE : char16 := 34%N.

Definition formatDeploymentTarget (deploymentTarget : option DeploymentTarget)
  : jsstring :=
  match deploymentTarget with
  | None => []
  | Some target =>
      let deviceString :=
        match device target with
        | Some d => of_string ": " ++ device_name d
        | None => []
        end in
      of_string " on " ++ [DQUOTE] ++ platform_name (platform target)
        ++ deviceString ++ [DQUOTE]
  end.

(** What [runTask] does to the outside while it runs: the console toggle
    command it dispatches, and the messages it pushes on [_outputMessages]. *)
Inductive Event : Type :=
| ConsoleToggle
| Output (text : jsstring) (level : jsstring).

(** The call the first deferred observable makes when the task is started:
    [platform.runTask(buildSystem, taskType, buildTarget, device)] or
    [buildSystem.runSubcommand(subcommand, buildTarget,
    {buildArguments: []}, isDebug, null)]. *)
Inductive StartAction : Type :=
| PlatformRunTask (p : Platform) (taskType : jsstring)
                  (target : ResolvedBuildTarget) (d : option Device)
| RunSubcommand (subcommand : jsstring) (target : ResolvedBuildTarget)
                (isDebug : bool).

Record TrackingData : Type := mkTrackingData {
  tracked_buckRoot : jsstring;
  tracked_buildTarget : jsstring;
  tracked_taskSettings : TaskSettings
}.

(** The task [runTask] returns: what starting it calls, what it logs when
    that call completes and when the task is cancelled, and its tracking
    data. *)
Record RunningTask : Type := mkRunningTask {
  on_start : StartAction;
  on_success : Event;
  on_cancel : Event;
  getTrackingData : TrackingData
}.

(** [s.toUpperCase()] on ASCII letters; the strings it is applied to are
    first letters of the four task types. *)
Definition toUpperCase (s : jsstring) : jsstring :=
  map (fun c => if ((97 <=? c) && (c <=? 122))%N then (c - 32)%N else c) s.

(** [runTask], on the state the store holds when it is called.  The result
    comes with the events up to the return or the throw. *)
Definition runTask (state : AppState) (taskType : jsstring)
  : Outcome RunningTask * list Event :=
  if negb (jsstring_eqb taskType (of_string "build")
           || jsstring_eqb taskType (of_string "test")
           || jsstring_eqb taskType (of_string "run")
           || jsstring_eqb taskType (of_string "debug"))
  then (Throw (InvariantViolation "Invalid task type"), [])
  else
    let events := [ConsoleToggle] in
    match assert_string (buckRoot state) with
    | Throw e => (Throw e, events)
    | Return buckRoot =>
    match assert_present (buildRuleType state) with
    | Throw e => (Throw e, events)
    | Return buildRuleType =>
        let deploymentString :=
          formatDeploymentTarget (selectedDeploymentTarget state) in
        let events :=
          events ++ [Output (of_string "Resolving " ++ taskType
                               ++ of_string " command for " ++ [DQUOTE]
                               ++ buildTarget state ++ [DQUOTE]
                               ++ deploymentString)
                            (of_string "log")] in
        let capitalizedTaskType :=
          toUpperCase (firstn 1 taskType) ++ skipn 1 taskType in
        (Return
           {| on_start :=
                match selectedDeploymentTarget state with
                | Some target =>
                    PlatformRunTask (platform target) taskType
                                    (rule_buildTarget buildRuleType)
                                    (device target)
                | None =>
                    let subcommand :=
                      if jsstring_eqb taskType (of_string "debug")
                      then of_string "build" else taskType in
                    RunSubcommand subcommand (rule_buildTarget buildRuleType)
                                  (jsstring_eqb taskType (of_string "debug"))
                end;
              on_success :=
                Output (capitalizedTaskType ++ of_string " succeeded.")
                       (of_string "success");
              on_cancel :=
                Output (capitalizedTaskType ++ of_string " stopped.")
                       (of_string "warning");
              getTrackingData :=
                {| tracked_buckRoot := buckRoot;
                   tracked_buildTarget := buildTarget state;
                   tracked_taskSettings := taskSettings state |} |},
         events)
    end
    end.

End State.

Unset Implicit Arguments.

End Buck.

(** *** Sample inputs for the task runner *)

Definition sample_platform : Buck.Platform :=
  {| Buck.platform_name := of_string "iOS";
     Buck.tasksForDevice := fun _ => [of_string "build"; of_string "debug"] |}.

Definition sample_target : Buck.DeploymentTarget :=
  {| Buck.platform := sample_platform;
     Buck.device := Some {| Buck.device_name := of_string "iPhone" |} |}.

Definition sample_rule : Buck.ResolvedRuleType jsstring :=
  {| Buck.rule_type := of_string "apple_binary";
     Buck.rule_buildTarget := of_string "//app:main" |}.

(** A store state with a Buck root and a resolved rule; the flag and the
    deployment target are left open. *)
Definition sample_state (loading : bool) (target : option Buck.DeploymentTarget)
  : Buck.AppState unit jsstring :=
  {| Buck.projectRoot := Some (of_string "/repo");
     Buck.buckRoot := Some (of_string "/repo");
     Buck.isLoadingBuckProject := false;
     Buck.isLoadingRule := false;
     Buck.isLoadingPlatforms := loading;
     Buck.buildTarget := of_string "//app:main";
     Buck.buildRuleType := Some sample_rule;
     Buck.selectedDeploymentTarget := target;
     Buck.taskSettings := tt;
     Buck.lastSessionPlatformName := Some (of_string "Android");
     Buck.lastSessionDeviceName := None |}.

Definition sample_saved : Buck.SerializedState unit :=
  {| Buck.serialized_buildTarget := Some (of_string "//app:main");
     Buck.serialized_taskSettings := Some tt;
     Buck.selectedPlatformName := Some (of_string "Android");
     Buck.selectedDeviceName := Some (of_string "Pixel") |}.

(** A store as [createStore] is handed it: no Buck root, no rule yet. *)
Definition sample_fresh : Buck.AppState unit jsstring :=
  Buck.initialState jsstring tt sample_saved.

(** ** The error reporter (installErrorReporter.js)

    The module keeps one variable, [disposable].  Installing registers
    [onUnhandledRejection] on the window and [onUnhandledException] with
    atom, and returns a [CompositeDisposable] of the atom subscription and
    of a [Disposable] that removes the window listener and clears the
    variable.  A composite (and a disposable) runs its disposal once: a
    second [dispose()] does nothing. *)

Module ErrorReporter.

(** Handles name the composites handed out, in order. *)
Record World : Type := mkWorld {
  disposable : option nat;
  next_handle : nat;
  disposed : list nat;
  rejection_listener : bool;
  exception_handlers : list nat
}.

Definition initial : World :=
  {| disposable := None;
     next_handle := 0;
     disposed := [];
     rejection_listener := false;
     exception_handlers := [] |}.

Inductive Result : Type :=
| Returned (handle : nat)
| Thrown (message : string).

(** [window.addEventListener] with a listener that is already there adds
    nothing, so the window either has the listener or not; atom keeps one
    subscription per call of [onWillThrowError]. *)
Definition installErrorReporter (w : World) : Result * World :=
  match disposable w with
  | Some _ => (Thrown "installErrorReporter was called multiple times.", w)
  | None =>
      let handle := next_handle w in
      (Returned handle,
       {| disposable := Some handle;
          next_handle := S handle;
          disposed := disposed w;
          rejection_listener := true;
          exception_handlers := handle :: exception_handlers w |})
  end.

(** [dispose()] on the composite [handle]: its atom subscription is
    disposed, then the callback removes the window listener and sets
    [disposable = null]. *)
Definition dispose (handle : nat) (w : World) : World :=
  if existsb (Nat.eqb handle) (disposed w) then w
  else
    {| disposable := None;
       next_handle := next_handle w;
       disposed := handle :: disposed w;
       rejection_listener := false;
       exception_handlers :=
         filter (fun h => negb (Nat.eqb h handle)) (exception_handlers w) |}.

(** The worlds a program can get to: it installs, and it disposes handles
    it has been given. *)
Inductive reachable : World -> Prop :=
| reach_initial : reachable initial
| reach_install w : reachable w -> reachable (snd (installErrorReporter w))
| reach_dispose w handle :
    reachable w -> handle < next_handle w -> reachable (dispose handle w).

End ErrorReporter.

(** *** Sample worlds of the error reporter *)

Definition installed_once : ErrorReporter.World :=
  snd (ErrorReporter.installErrorReporter ErrorReporter.initial).

(** Installed, disposed, and installed again: handle 0 is stale, handle 1
    current. *)
Definition installed_again : ErrorReporter.World :=
  snd (ErrorReporter.installErrorReporter
         (ErrorReporter.dispose 0 installed_once)).

(** ** Lists and lines *)

Lemma firstn_S_nth {A} (d : A) (l : list A) (j : nat) :
  j < length l -> firstn (S j) l = firstn j l ++ [nth j l d].
Proof.
  revert j; induction l as [|x l IH]; intros j Hj; simpl in Hj; [lia|].
  destruct j as [|j]; [reflexivity|].
  change (firstn (S (S j)) (x :: l)) with (x :: firstn (S j) l).
  rewrite (IH j) by lia. reflexivity.
Qed.

Lemma nth_skipn_add {A} (d : A) (l : list A) (s j : nat) :
  nth j (skipn s l) d = nth (s + j) l d.
Proof.
  revert l; induction s as [|s IH]; intros l; [reflexivity|].
  destruct l as [|x l]; simpl.
  - destruct j; reflexivity.
  - apply IH.
Qed.

Lemma scanned_S lines start j :
  start + j < length lines ->
  scanned lines start (S j) = scanned lines start j ++ [line_at lines (start + j)].
Proof.
  intros H. unfold scanned, line_at.
  rewrite (firstn_S_nth (of_string "undefined")).
  - now rewrite nth_skipn_add.
  - rewrite length_skipn. lia.
Qed.

Lemma scanned_length lines start k :
  length (scanned lines start k) = Nat.min k (length lines - start).
Proof. unfold scanned. now rewrite length_firstn, length_skipn. Qed.

Lemma total_snoc c ls l :
  total c (ls ++ [l]) = total c ls + countOccurrences l c.
Proof.
  unfold total. rewrite map_app, list_sum_app. simpl. lia.
Qed.

(** One run of the loop body at [i = start + j], from the state the loop is
    in after [j] lines. *)
Lemma scan_step lines start fuel j :
  start + j < length lines -> j < MAX_PREVIEW_LINES ->
  scan lines start (getIndentLevel (line_at lines start)) (S fuel) (start + j)
       (total OPEN_PAREN (scanned lines start j))
       (total CLOSE_PAREN (scanned lines start j))
       (scanned lines start j)
  = if stops_at lines start j then scanned lines start (S j)
    else scan lines start (getIndentLevel (line_at lines start)) fuel
              (start + S j)
              (total OPEN_PAREN (scanned lines start (S j)))
              (total CLOSE_PAREN (scanned lines start (S j)))
              (scanned lines start (S j)).
Proof.
  intros Hlen Hcap. simpl scan.
  assert (G1 : (start + j <? start + MAX_PREVIEW_LINES) = true)
    by (apply Nat.ltb_lt; lia).
  assert (G2 : (start + j <? length lines) = true) by (apply Nat.ltb_lt; lia).
  rewrite G1, G2. simpl andb. cbv zeta.
  unfold stops_at. rewrite (scanned_S lines start j Hlen), !total_snoc.
  replace (start + S j) with (S (start + j)) by lia.
  reflexivity.
Qed.

(** The loop stops, inclusive, at the first line that passes the stop
    test. *)
Lemma scan_stops lines start k :
  start + k < length lines -> k < MAX_PREVIEW_LINES ->
  stops_at lines start k = true ->
  (forall j, j < k -> stops_at lines start j = false) ->
  forall fuel j, j <= k -> k < j + fuel ->
  scan lines start (getIndentLevel (line_at lines start)) fuel (start + j)
       (total OPEN_PAREN (scanned lines start j))
       (total CLOSE_PAREN (scanned lines start j))
       (scanned lines start j)
  = scanned lines start (S k).
Proof.
  intros Hlen Hcap Hstop Hfirst fuel.
  induction fuel as [|fuel IH]; intros j Hjk Hfuel; [lia|].
  rewrite scan_step by lia.
  destruct (Nat.eq_dec j k) as [->|Hne].
  - now rewrite Hstop.
  - rewrite Hfirst by lia. apply IH; lia.
Qed.

(** Without such a line the loop runs to the cap or to the end of the file,
    whichever comes first. *)
Lemma scan_runs_out lines start :
  let m := Nat.min MAX_PREVIEW_LINES (length lines - start) in
  (forall j, j < m -> stops_at lines start j = false) ->
  forall fuel j, j <= m -> MAX_PREVIEW_LINES <= j + fuel ->
  scan lines start (getIndentLevel (line_at lines start)) fuel (start + j)
       (total OPEN_PAREN (scanned lines start j))
       (total CLOSE_PAREN (scanned lines start j))
       (scanned lines start j)
  = scanned lines start m.
Proof.
  intros m Hnone fuel.
  induction fuel as [|fuel IH]; intros j Hjm Hfuel.
  - simpl. replace j with m by (subst m; lia). reflexivity.
  - destruct (Nat.eq_dec j m) as [->|Hne].
    + simpl scan.
      assert (G : (start + m <? start + MAX_PREVIEW_LINES)
                  && (start + m <? length lines) = false).
      { apply andb_false_iff.
        destruct (Nat.le_gt_cases MAX_PREVIEW_LINES m).
        - left. apply Nat.ltb_ge. lia.
        - right. apply Nat.ltb_ge. subst m. lia. }
      now rewrite G.
    + rewrite scan_step by (subst m; lia).
      rewrite Hnone by lia. apply IH; lia.
Qed.

(** Bounded search for the first index that passes a test. *)
Lemma first_true_or_none (P : nat -> bool) (m : nat) :
  (exists k, k < m /\ P k = true /\ forall j, j < k -> P j = false)
  \/ (forall j, j < m -> P j = false).
Proof.
  induction m as [|m [(k & Hk & HP & Hmin)|Hnone]].
  - right. intros j Hj. lia.
  - left. exists k. repeat split; auto.
  - destruct (P m) eqn:E.
    + left. exists m. repeat split; auto.
    + right. intros j Hj.
      destruct (Nat.eq_dec j m) as [->|]; [assumption|apply Hnone; lia].
Qed.

Lemma scan_from_start lines start fuel :
  scan lines start (getIndentLevel (line_at lines start)) fuel start 0 0 []
  = scan lines start (getIndentLevel (line_at lines start)) fuel (start + 0)
         (total OPEN_PAREN (scanned lines start 0))
         (total CLOSE_PAREN (scanned lines start 0))
         (scanned lines start 0).
Proof. now rewrite Nat.add_0_r. Qed.

(** What the loop leaves in [buffer], for any fuel from [MAX_PREVIEW_LINES]
    up. *)
Lemma scan_cases lines start extra :
  let m := Nat.min MAX_PREVIEW_LINES (length lines - start) in
  let buffer := scan lines start (getIndentLevel (line_at lines start))
                     (MAX_PREVIEW_LINES + extra) start 0 0 [] in
  (exists k, k < m /\ stops_at lines start k = true
             /\ (forall j, j < k -> stops_at lines start j = false)
             /\ buffer = scanned lines start (S k))
  \/ ((forall j, j < m -> stops_at lines start j = false)
      /\ buffer = scanned lines start m).
Proof.
  intros m buffer. subst buffer. rewrite scan_from_start.
  destruct (first_true_or_none (stops_at lines start) m)
    as [(k & Hk & Hstop & Hfirst)|Hnone].
  - left. exists k. repeat split; auto.
    apply scan_stops; auto; subst m; lia.
  - right. split; auto. apply scan_runs_out; auto; lia.
Qed.

(** [MAX_PREVIEW_LINES] unfoldings never cut the loop short: more fuel gives
    the same buffer. *)
Lemma scan_fuel lines start extra :
  scan lines start (getIndentLevel (line_at lines start))
       (MAX_PREVIEW_LINES + extra) start 0 0 []
  = preview_buffer lines start.
Proof.
  unfold preview_buffer.
  destruct (scan_cases lines start extra) as [(k & Hk & Hs & Hf & ->)|[Hn ->]];
  destruct (scan_cases lines start 0) as [(k' & Hk' & Hs' & Hf' & E)|[Hn' E]];
  rewrite Nat.add_0_r in E; rewrite E.
  - destruct (Nat.lt_trichotomy k k') as [H|[->|H]]; [|reflexivity|].
    + rewrite Hf' in Hs by assumption. discriminate.
    + rewrite Hf in Hs' by assumption. discriminate.
  - rewrite Hn' in Hs by assumption. discriminate.
  - rewrite Hn in Hs' by assumption. discriminate.
  - reflexivity.
Qed.

Lemma preview_buffer_cases lines start :
  let m := Nat.min MAX_PREVIEW_LINES (length lines - start) in
  (exists k, k < m /\ stops_at lines start k = true
             /\ (forall j, j < k -> stops_at lines start j = false)
             /\ preview_buffer lines start = scanned lines start (S k))
  \/ ((forall j, j < m -> stops_at lines start j = false)
      /\ preview_buffer lines start = scanned lines start m).
Proof.
  intros m. generalize (scan_cases lines start 0).
  rewrite Nat.add_0_r. exact (fun H => H).
Qed.

(** [split] and [join] on lines. *)

Lemma split_lines_nonempty s : split_lines s <> [].
Proof.
  destruct s as [|c s]; simpl; [discriminate|].
  destruct (N.eqb c LF); [discriminate|].
  destruct (split_lines s); discriminate.
Qed.

Lemma split_lines_no_LF s : Forall no_LF (split_lines s).
Proof.
  induction s as [|c s IH]; simpl.
  - constructor; [intros []|constructor].
  - destruct (N.eqb c LF) eqn:E.
    + constructor; [intros []|assumption].
    + apply N.eqb_neq in E.
      destruct (split_lines s) as [|l ls].
      * constructor; [|constructor]. intros [H|[]]. congruence.
      * inversion IH; subst. constructor; [|assumption].
        intros [H|H]; [congruence|contradiction].
Qed.

Lemma split_lines_app_LF l s :
  no_LF l -> split_lines (l ++ LF :: s) = l :: split_lines s.
Proof.
  induction l as [|c l IH]; intros H; simpl.
  - reflexivity.
  - destruct (N.eqb c LF) eqn:E.
    + apply N.eqb_eq in E. exfalso. apply H. now left.
    + rewrite IH; [reflexivity|]. intros Hin. apply H. now right.
Qed.

Lemma split_lines_single l : no_LF l -> split_lines l = [l].
Proof.
  induction l as [|c l IH]; intros H; simpl; [reflexivity|].
  destruct (N.eqb c LF) eqn:E.
  - apply N.eqb_eq in E. exfalso. apply H. now left.
  - rewrite IH; [reflexivity|]. intros Hin. apply H. now right.
Qed.

Lemma split_join ls :
  ls <> [] -> Forall no_LF ls -> split_lines (join_lines ls) = ls.
Proof.
  induction ls as [|l ls IH]; intros Hne Hall; [contradiction|].
  inversion Hall as [|? ? Hl Hls]; subst.
  destruct ls as [|l' ls].
  - simpl. now apply split_lines_single.
  - change (join_lines (l :: l' :: ls)) with (l ++ LF :: join_lines (l' :: ls)).
    rewrite split_lines_app_LF by assumption.
    rewrite IH; [reflexivity|discriminate|assumption].
Qed.

Lemma no_LF_skipn n l : no_LF l -> no_LF (skipn n l).
Proof.
  intros H Hin. apply H. revert Hin. generalize LF.
  revert l H; induction n as [|n IH]; intros l H c; [trivial|].
  destruct l as [|x l]; simpl; [trivial|].
  intros Hin. right. revert Hin. apply IH. intros Hc. apply H. now right.
Qed.

(** The dedent transform keeps the number of lines. *)
Lemma dedent_lines s :
  length (split_lines (dedent s)) = length (split_lines s).
Proof.
  unfold dedent. rewrite split_join.
  - apply length_map.
  - intros E. apply map_eq_nil in E. now apply split_lines_nonempty in E.
  - apply Forall_map. eapply Forall_impl; [|apply split_lines_no_LF].
    intros l. apply no_LF_skipn.
Qed.

Lemma scanned_incl {A} (l : list A) (s k : nat) (x : A) :
  In x (firstn k (skipn s l)) -> In x l.
Proof.
  intros H.
  rewrite <- (firstn_skipn s l). apply in_or_app. right.
  rewrite <- (firstn_skipn k (skipn s l)). apply in_or_app. now left.
Qed.

Lemma scanned_no_LF contents start k :
  Forall no_LF (scanned (split_lines contents) start k).
Proof.
  apply Forall_forall. intros l Hin.
  apply (proj1 (Forall_forall _ _) (split_lines_no_LF contents) l).
  now apply scanned_incl in Hin.
Qed.

Lemma preview_buffer_length lines start :
  start < length lines ->
  1 <= length (preview_buffer lines start) <= MAX_PREVIEW_LINES.
Proof.
  intros Hstart.
  destruct (preview_buffer_cases lines start) as [(k & Hk & _ & _ & ->)|[_ ->]];
    rewrite scanned_length; unfold MAX_PREVIEW_LINES in *; lia.
Qed.

Lemma preview_buffer_scanned lines start :
  exists k, preview_buffer lines start = scanned lines start k.
Proof.
  destruct (preview_buffer_cases lines start) as [(k & _ & _ & _ & E)|[_ E]];
    rewrite E; eauto.
Qed.

Lemma getDefinitionPreview_eq fs definition contents :
  fs (path definition) = Some contents ->
  getDefinitionPreview fs definition
  = Return (dedent (join_lines
      (preview_buffer (split_lines contents) (row (position definition))))).
Proof.
  intros H. unfold getDefinitionPreview, readFile. now rewrite H.
Qed.

(** ** The preview extractor: claims C1 and C2 *)

(** C1.  Scanning from line [start = definition.position.row], the loop
    appends one line at a time and stops, inclusive, at the first line
    (the [k]-th after [start], within the window the cap of claim C2
    leaves) whose indentation is at most that of line [start] while the
    "(" and ")" counted over all the scanned lines are equal; the lines
    [start .. start + k] are then joined with line feeds and dedented. *)
Theorem C1_scan_stops_at_first_closing_line
  (fs : FileSystem) (definition : Definition_) (contents : jsstring) (k : nat) :
  fs (path definition) = Some contents ->
  row (position definition) + k < length (split_lines contents) ->
  k < MAX_PREVIEW_LINES ->
  stops_at (split_lines contents) (row (position definition)) k = true ->
  (forall j, j < k ->
     stops_at (split_lines contents) (row (position definition)) j = false) ->
  preview_buffer (split_lines contents) (row (position definition))
  = scanned (split_lines contents) (row (position definition)) (S k)
  /\ getDefinitionPreview fs definition
     = Return (dedent (join_lines
         (scanned (split_lines contents) (row (position definition)) (S k)))).
Proof.
  intros Hfs Hlen Hcap Hstop Hfirst.
  assert (E : preview_buffer (split_lines contents) (row (position definition))
              = scanned (split_lines contents) (row (position definition)) (S k)).
  { unfold preview_buffer. rewrite scan_from_start.
    apply scan_stops; auto; lia. }
  split; [exact E|].
  rewrite (getDefinitionPreview_eq fs definition contents Hfs). now rewrite E.
Qed.

(** C2.  For a definition whose row is a line of the file, at most 10 lines
    are scanned and the returned text has at most 10 lines; when no line of
    the window passes the stop test, the scan takes exactly the window: 10
    lines, or the lines up to the end of the file when fewer remain. *)
Theorem C2_preview_at_most_ten_lines
  (fs : FileSystem) (definition : Definition_) (contents : jsstring) :
  fs (path definition) = Some contents ->
  row (position definition) < length (split_lines contents) ->
  length (preview_buffer (split_lines contents) (row (position definition))) <= 10
  /\ (exists out, getDefinitionPreview fs definition = Return out
                  /\ length (split_lines out) <= 10)
  /\ ((forall j,
         j < Nat.min 10 (length (split_lines contents) - row (position definition)) ->
         stops_at (split_lines contents) (row (position definition)) j = false) ->
      preview_buffer (split_lines contents) (row (position definition))
      = scanned (split_lines contents) (row (position definition))
          (Nat.min 10 (length (split_lines contents) - row (position definition)))).
Proof.
  intros Hfs Hrow.
  set (lines := split_lines contents) in *.
  set (start := row (position definition)) in *.
  pose proof (preview_buffer_length lines start Hrow) as [Hlo Hhi].
  change MAX_PREVIEW_LINES with 10 in Hhi.
  split; [exact Hhi|split].
  - eexists. split; [apply (getDefinitionPreview_eq fs definition contents Hfs)|].
    fold lines start.
    rewrite dedent_lines, split_join; [exact Hhi| |].
    + intros E. rewrite E in Hlo. simpl in Hlo. lia.
    + destruct (preview_buffer_scanned lines start) as [k ->].
      apply scanned_no_LF.
  - intros Hnone.
    destruct (preview_buffer_cases lines start) as [(k & Hk & Hs & _)|[_ E]].
    + rewrite (Hnone k Hk) in Hs. discriminate.
    + exact E.
Qed.

(** The heuristic on sample files. *)

Example preview_single_line :
  getDefinitionPreview (fun _ => Some (of_string "def f():")) (definition_at [] 0)
  = Return (of_string "def f():").
Proof. reflexivity. Qed.

Example preview_sample_call :
  getDefinitionPreview sample_fs (definition_at (of_string "a.js") 0)
  = Return (join_lines [of_string "foo(a,"; of_string "    b)"; of_string "next()"]).
Proof. reflexivity. Qed.

Example preview_indented_method :
  getDefinitionPreview
    (fun _ => Some (join_lines [of_string "class A {";
                                of_string "    foo(a,";
                                of_string "        b) {";
                                of_string "    }";
                                of_string "}"]))
    (definition_at [] 1)
  = Return (join_lines [of_string "foo(a,"; of_string "    b) {"; of_string "}"]).
Proof. reflexivity. Qed.

Example preview_unreadable :
  getDefinitionPreview sample_fs (definition_at (of_string "b.js") 0)
  = Throw IOError.
Proof. reflexivity. Qed.

Lemma C1_scan_stops_at_first_closing_line_witness :
  preview_buffer (split_lines sample_call) 0
  = [of_string "foo(a,"; of_string "    b)"; of_string "next()"]
  /\ getDefinitionPreview sample_fs (definition_at (of_string "a.js") 0)
     = Return (dedent (join_lines
         [of_string "foo(a,"; of_string "    b)"; of_string "next()"])).
Proof.
  apply (C1_scan_stops_at_first_closing_line
           sample_fs (definition_at (of_string "a.js") 0) sample_call 2).
  - reflexivity.
  - vm_compute. lia.
  - vm_compute. lia.
  - reflexivity.
  - intros j Hj. destruct j as [|[|j]]; [reflexivity|reflexivity|lia].
Defined.

Lemma C2_preview_at_most_ten_lines_witness :
  length (preview_buffer (split_lines sample_open) 1) <= 10
  /\ (exists out, getDefinitionPreview open_fs (definition_at [] 1) = Return out
                  /\ length (split_lines out) <= 10)
  /\ ((forall j, j < Nat.min 10 (length (split_lines sample_open) - 1) ->
         stops_at (split_lines sample_open) 1 j = false) ->
      preview_buffer (split_lines sample_open) 1
      = scanned (split_lines sample_open) 1
          (Nat.min 10 (length (split_lines sample_open) - 1))).
Proof.
  apply (C2_preview_at_most_ten_lines open_fs (definition_at [] 1) sample_open).
  - reflexivity.
  - vm_compute. lia.
Defined.

(** ** The position resolver: offsets and points *)

Lemma count_newlines_count_occ s :
  count_newlines s = count_occ N.eq_dec s LF.
Proof.
  unfold count_newlines. induction s as [|c s IH]; [reflexivity|].
  cbn [filter count_occ].
  destruct (N.eqb_spec LF c) as [E|E], (N.eq_dec c LF) as [E'|E'];
    try congruence; simpl; now rewrite IH.
Qed.

Lemma lastIndexOf_LF_None s : lastIndexOf_LF s = None -> no_LF s.
Proof.
  induction s as [|c s IH]; simpl; intros H; [intros []|].
  destruct (lastIndexOf_LF s); [discriminate|].
  destruct (N.eqb c LF) eqn:E; [discriminate|].
  apply N.eqb_neq in E. intros [Hc|Hin]; [congruence|].
  now apply IH.
Qed.

Lemma lastIndexOf_LF_Some s k :
  lastIndexOf_LF s = Some k ->
  exists pre line, s = pre ++ LF :: line /\ length pre = k /\ no_LF line.
Proof.
  revert k; induction s as [|c s IH]; simpl; intros k H; [discriminate|].
  destruct (lastIndexOf_LF s) as [k'|] eqn:Es.
  - injection H as <-.
    destruct (IH k' eq_refl) as (pre & line & -> & Hlen & Hline).
    exists (c :: pre), line. repeat split; simpl; auto.
  - destruct (N.eqb c LF) eqn:E; [|discriminate].
    injection H as <-. apply N.eqb_eq in E. subst c.
    exists [], s. repeat split. now apply lastIndexOf_LF_None.
Qed.

(** The point of an offset inside the text: its row counts the line feeds
    before the offset, and its column is the length of the run of
    characters between the offset and the preceding line feed, or the
    start of the text. *)
Lemma offsetToPoint_spec text offset :
  offset <= length text ->
  row (offsetToPoint text offset)
  = count_occ N.eq_dec (firstn offset text) LF
  /\ exists pre line,
       firstn offset text = pre ++ line
       /\ no_LF line
       /\ (pre = [] \/ exists pre', pre = pre' ++ [LF])
       /\ column (offsetToPoint text offset) = length line.
Proof.
  intros Hoff. unfold offsetToPoint; simpl.
  split; [apply count_newlines_count_occ|].
  assert (Hlen : length (firstn offset text) = offset)
    by (rewrite length_firstn; lia).
  destruct (lastIndexOf_LF (firstn offset text)) as [k|] eqn:E.
  - destruct (lastIndexOf_LF_Some _ _ E) as (pre & line & Heq & Hk & Hline).
    exists (pre ++ [LF]), line. repeat split.
    + rewrite Heq, <- app_assoc. reflexivity.
    + assumption.
    + right. now exists pre.
    + rewrite Heq, length_app in Hlen. simpl in Hlen. lia.
  - exists [], (firstn offset text). repeat split.
    + now apply lastIndexOf_LF_None.
    + now left.
    + now rewrite Hlen.
Qed.

(** ** The position resolver: the builder and the definition node *)

Lemma builder_ok path text definition nm nameLoc :
  definition_name definition = Some nm ->
  name_loc nm = Some nameLoc ->
  getDefinitionForFragmentDefinition path text definition
  = Return {| path := path;
              position := offsetToPoint text (loc_start nameLoc);
              range := locToRange text (definition_loc definition);
              name := value nm;
              language := LANGUAGE;
              projectRoot := path |}.
Proof.
  intros Hn Hl. unfold getDefinitionForFragmentDefinition.
  rewrite Hn. simpl. rewrite Hl. reflexivity.
Qed.

(** C6.  For a fragment or operation definition whose name node is present
    and carries a location, the resolver returns exactly one definition, the
    one the builder makes, and exactly one query range: the range of the
    name token in the given text, while the definition's own [range] is
    that of the whole node. *)
Theorem C6_definition_node_one_definition_name_range
  (path : Uri) (text : jsstring) (definition : DefinitionNode)
  (nm : NameNode) (nameLoc : Location) :
  definition_name definition = Some nm ->
  name_loc nm = Some nameLoc ->
  exists d,
    getDefinitionForFragmentDefinition path text definition = Return d
    /\ getDefinitionQueryResultForDefinitionNode path text definition
       = Return {| queryRange := [locToRange text nameLoc];
                   definitions := [d] |}
    /\ range d = locToRange text (definition_loc definition).
Proof.
  intros Hn Hl. eexists. split; [apply (builder_ok _ _ _ _ _ Hn Hl)|].
  split; [|reflexivity].
  unfold getDefinitionQueryResultForDefinitionNode.
  rewrite (builder_ok _ _ _ _ _ Hn Hl), Hn. simpl. rewrite Hl. reflexivity.
Qed.

Lemma C6_definition_node_one_definition_name_range_witness :
  exists d,
    getDefinitionForFragmentDefinition (of_string "q.graphql") two_queries query_B
    = Return d
    /\ getDefinitionQueryResultForDefinitionNode
         (of_string "q.graphql") two_queries query_B
       = Return {| queryRange := [locToRange two_queries
                                    {| loc_start := 20; loc_end := 21 |}];
                   definitions := [d] |}
    /\ range d = locToRange two_queries (definition_loc query_B).
Proof.
  apply (C6_definition_node_one_definition_name_range
           (of_string "q.graphql") two_queries query_B name_B
           {| loc_start := 20; loc_end := 21 |}); reflexivity.
Defined.

(** The scenario of the spec: the name of the second query sits at row 1,
    column 6, and the definition spans the second line. *)
Example query_B_position :
  getDefinitionForFragmentDefinition [] two_queries query_B
  = Return {| path := [];
              position := {| row := 1; column := 6 |};
              range := {| range_start := {| row := 1; column := 0 |};
                          range_end := {| row := 1; column := 13 |} |};
              name := of_string "B";
              language := of_string "GraphQL";
              projectRoot := [] |}.
Proof. reflexivity. Qed.

(** C7.  For a definition node whose name and name location are present and
    a text that contains the name's start offset, the built definition has
    [position.row] equal to the number of line feeds of the text before that
    offset, and [position.column] equal to the length of the run of
    characters between the preceding line feed (or the start of the text)
    and the offset. *)
Theorem C7_position_is_row_and_column_of_name_start
  (path : Uri) (text : jsstring) (definition : DefinitionNode)
  (nm : NameNode) (nameLoc : Location) :
  definition_name definition = Some nm ->
  name_loc nm = Some nameLoc ->
  loc_start nameLoc <= length text ->
  exists d,
    getDefinitionForFragmentDefinition path text definition = Return d
    /\ row (position d)
       = count_occ N.eq_dec (firstn (loc_start nameLoc) text) LF
    /\ exists pre line,
         firstn (loc_start nameLoc) text = pre ++ line
         /\ no_LF line
         /\ (pre = [] \/ exists pre', pre = pre' ++ [LF])
         /\ column (position d) = length line.
Proof.
  intros Hn Hl Hoff. eexists. split; [apply (builder_ok _ _ _ _ _ Hn Hl)|].
  exact (offsetToPoint_spec text (loc_start nameLoc) Hoff).
Qed.

Lemma C7_position_is_row_and_column_of_name_start_witness :
  exists d,
    getDefinitionForFragmentDefinition [] two_queries query_B = Return d
    /\ row (position d) = count_occ N.eq_dec (firstn 20 two_queries) LF
    /\ exists pre line,
         firstn 20 two_queries = pre ++ line
         /\ no_LF line
         /\ (pre = [] \/ exists pre', pre = pre' ++ [LF])
         /\ column (position d) = length line.
Proof.
  apply (C7_position_is_row_and_column_of_name_start
           [] two_queries query_B name_B {| loc_start := 20; loc_end := 21 |}).
  - reflexivity.
  - reflexivity.
  - vm_compute. lia.
Defined.

(** C8.  The builder, and with it the definition-node resolver, fails fast
    with the invariant "Name node expected." when the name node is null and
    with "Location for Name node expected." when the name's location is
    null, and makes no definition then; with both present neither throws. *)
Theorem C8_builder_fails_fast_without_name_or_location
  (path : Uri) (text : jsstring) (definition : DefinitionNode) :
  match definition_name definition with
  | None =>
      getDefinitionForFragmentDefinition path text definition
      = Throw (InvariantViolation "Name node expected.")
      /\ getDefinitionQueryResultForDefinitionNode path text definition
         = Throw (InvariantViolation "Name node expected.")
  | Some nm =>
      match name_loc nm with
      | None =>
          getDefinitionForFragmentDefinition path text definition
          = Throw (InvariantViolation "Location for Name node expected.")
          /\ getDefinitionQueryResultForDefinitionNode path text definition
             = Throw (InvariantViolation "Location for Name node expected.")
      | Some _ =>
          (exists d,
             getDefinitionForFragmentDefinition path text definition = Return d)
          /\ (exists r,
                getDefinitionQueryResultForDefinitionNode path text definition
                = Return r)
      end
  end.
Proof.
  unfold getDefinitionQueryResultForDefinitionNode,
    getDefinitionForFragmentDefinition.
  destruct (definition_name definition) as [nm|]; simpl.
  - destruct (name_loc nm) as [l|]; simpl; split; eauto.
  - split; reflexivity.
Qed.

(** ** The position resolver: fragment spreads *)

Lemma mapM_lift {A B} (f : A -> Outcome B) (l : list A) (w : World) :
  mapM (fun x => lift (f x)) l w = (mapO f l, w).
Proof.
  induction l as [|x l IH]; [reflexivity|].
  simpl. unfold bind, lift at 1. destruct (f x) as [y|e]; simpl; [|reflexivity].
  rewrite IH. destruct (mapO f l); reflexivity.
Qed.

Lemma mapM_ret {A B} (g : A -> B) (l : list A) (w : World) :
  mapM (fun x => ret (g x)) l w = (Return (map g l), w).
Proof.
  induction l as [|x l IH]; [reflexivity|].
  simpl. unfold bind, ret at 1. rewrite IH. reflexivity.
Qed.

Lemma map_const_repeat {A B} (c : B) (l : list A) :
  map (fun _ => c) l = repeat c (length l).
Proof. induction l; simpl; congruence. Qed.

(** The branch on [defNodes === []] compares two arrays made one after the
    other, so it is never taken: the call is a map of the builder over the
    fragments that declare the name, and writes nothing. *)
Lemma spread_run text fragment dependencies w :
  getDefinitionQueryResultForFragmentSpread text fragment dependencies w
  = match mapO build_for (filter (declares fragment) dependencies) with
    | Return defs =>
        (Return {| queryRange :=
                     repeat (locToRange text (spread_loc fragment)) (length defs);
                   definitions := defs |},
         {| next_ref := 4 + next_ref w; stderr := stderr w |})
    | Throw e =>
        (Throw e, {| next_ref := 2 + next_ref w; stderr := stderr w |})
    end.
Proof.
  unfold getDefinitionQueryResultForFragmentSpread, Array_filter, Array_map.
  unfold bind at 1, new_array at 1.
  unfold bind at 1, new_array at 1.
  unfold strict_equal. cbn [ref elems next_ref stderr].
  rewrite (proj2 (Nat.eqb_neq _ _) (Nat.neq_succ_diag_r (next_ref w))).
  unfold bind at 1. unfold bind at 1.
  change (fun fi : FragmentInfo =>
            lift (getDefinitionForFragmentDefinition (or_empty (filePath fi))
                    (content fi) (FragmentDefinition (definition fi))))
    with (fun fi : FragmentInfo => lift (build_for fi)).
  rewrite mapM_lift.
  change (fun fi : FragmentInfo =>
            jsstring_eqb (value (fragment_name (definition fi)))
              (value (spread_name fragment)))
    with (declares fragment).
  destruct (mapO build_for (filter (declares fragment) dependencies))
    as [defs|e]; [|reflexivity].
  unfold new_array at 1. cbn [ref elems next_ref stderr].
  unfold bind at 1. unfold bind at 1.
  rewrite mapM_ret. unfold new_array, ret. cbn [ref elems next_ref stderr].
  now rewrite map_const_repeat.
Qed.

Lemma spread_stderr text fragment dependencies w :
  stderr (snd (getDefinitionQueryResultForFragmentSpread
                 text fragment dependencies w))
  = stderr w.
Proof.
  rewrite spread_run.
  destruct (mapO build_for (filter (declares fragment) dependencies));
    reflexivity.
Qed.

(** Fragments whose name carries a location all get a definition, made from
    their own path and text. *)
Lemma build_all (l : list FragmentInfo) :
  Forall has_name_loc l ->
  exists defs,
    mapO build_for l = Return defs
    /\ Forall2 (fun fi d =>
                  path d = or_empty (filePath fi)
                  /\ projectRoot d = or_empty (filePath fi)
                  /\ build_for fi = Return d) l defs.
Proof.
  induction 1 as [|fi l Hfi Hl (defs & E & F)].
  - exists []. split; [reflexivity|constructor].
  - unfold has_name_loc in Hfi.
    destruct (name_loc (fragment_name (definition fi))) as [nl|] eqn:En;
      [|contradiction].
    assert (B : build_for fi
                = Return {| path := or_empty (filePath fi);
                            position := offsetToPoint (content fi) (loc_start nl);
                            range := locToRange (content fi)
                                       (fragment_loc (definition fi));
                            name := value (fragment_name (definition fi));
                            language := LANGUAGE;
                            projectRoot := or_empty (filePath fi) |}).
    { unfold build_for.
      now apply (builder_ok _ _ (FragmentDefinition (definition fi))
                            (fragment_name (definition fi)) nl). }
    eexists. split.
    + simpl. rewrite B, E. reflexivity.
    + constructor; [|exact F]. repeat split. exact B.
Qed.

(** C3.  When [n >= 1] known fragments declare the spread's name (each with
    the name location the builder requires), the resolver returns exactly
    [n] definitions and a query range of exactly [n] entries, every one the
    range of the spread itself in the referencing text; with one match
    that is one definition and the one range. *)
Theorem C3_spread_one_range_per_match
  (text : jsstring) (fragment : FragmentSpreadNode)
  (dependencies : list FragmentInfo) (w : World) (n : nat) :
  length (filter (declares fragment) dependencies) = n ->
  1 <= n ->
  Forall has_name_loc (filter (declares fragment) dependencies) ->
  exists defs,
    fst (getDefinitionQueryResultForFragmentSpread text fragment dependencies w)
    = Return {| queryRange := repeat (locToRange text (spread_loc fragment)) n;
                definitions := defs |}
    /\ length defs = n
    /\ (n = 1 ->
        exists d,
          fst (getDefinitionQueryResultForFragmentSpread
                 text fragment dependencies w)
          = Return {| queryRange := [locToRange text (spread_loc fragment)];
                      definitions := [d] |}).
Proof.
  intros Hn Hpos Hloc.
  destruct (build_all _ Hloc) as (defs & E & F).
  pose proof (Forall2_length F) as Hlen. rewrite Hn in Hlen.
  assert (R : fst (getDefinitionQueryResultForFragmentSpread
                     text fragment dependencies w)
              = Return {| queryRange :=
                            repeat (locToRange text (spread_loc fragment)) n;
                          definitions := defs |}).
  { rewrite spread_run, E. simpl. now rewrite <- Hlen. }
  exists defs. split; [exact R|]. split; [now symmetry|].
  intros ->. destruct defs as [|d [|d' defs]]; try discriminate.
  exists d. exact R.
Qed.

Lemma C3_spread_one_range_per_match_witness :
  exists defs,
    fst (getDefinitionQueryResultForFragmentSpread spread_text (spread_of "F")
           [info_F (Some (of_string "a.graphql")); info_F None] world0)
    = Return {| queryRange :=
                  repeat (locToRange spread_text {| loc_start := 10; loc_end := 14 |}) 2;
                definitions := defs |}
    /\ length defs = 2
    /\ (2 = 1 ->
        exists d,
          fst (getDefinitionQueryResultForFragmentSpread spread_text (spread_of "F")
                 [info_F (Some (of_string "a.graphql")); info_F None] world0)
          = Return {| queryRange := [locToRange spread_text
                                       {| loc_start := 10; loc_end := 14 |}];
                      definitions := [d] |}).
Proof.
  apply (C3_spread_one_range_per_match spread_text (spread_of "F")
           [info_F (Some (of_string "a.graphql")); info_F None] world0 2).
  - reflexivity.
  - lia.
  - repeat constructor; discriminate.
Defined.

(** The resolver on two known fragments named [F]: two definitions, and the
    spread's range twice. *)
Example spread_two_matches :
  fst (getDefinitionQueryResultForFragmentSpread spread_text (spread_of "F")
         [info_F (Some (of_string "a.graphql")); info_F None] world0)
  = Return
      {| queryRange := [ {| range_start := {| row := 0; column := 10 |};
                            range_end := {| row := 0; column := 14 |} |};
                         {| range_start := {| row := 0; column := 10 |};
                            range_end := {| row := 0; column := 14 |} |} ];
         definitions :=
           [ {| path := of_string "a.graphql";
                position := {| row := 0; column := 9 |};
                range := {| range_start := {| row := 0; column := 0 |};
                            range_end := {| row := 0; column := 21 |} |};
                name := of_string "F";
                language := of_string "GraphQL";
                projectRoot := of_string "a.graphql" |};
             {| path := [];
                position := {| row := 0; column := 9 |};
                range := {| range_start := {| row := 0; column := 0 |};
                            range_end := {| row := 0; column := 21 |} |};
                name := of_string "F";
                language := of_string "GraphQL";
                projectRoot := [] |} ] |}.
Proof. reflexivity. Qed.

(** C4.  When no known fragment declares the spread's name, the resolver
    returns the result with no definitions and no query range, and does not
    throw. *)
Theorem C4_spread_without_match_is_empty
  (text : jsstring) (fragment : FragmentSpreadNode)
  (dependencies : list FragmentInfo) (w : World) :
  filter (declares fragment) dependencies = [] ->
  fst (getDefinitionQueryResultForFragmentSpread text fragment dependencies w)
  = Return {| queryRange := []; definitions := [] |}.
Proof.
  intros H. rewrite spread_run, H. reflexivity.
Qed.

Lemma C4_spread_without_match_is_empty_witness :
  fst (getDefinitionQueryResultForFragmentSpread spread_text (spread_of "G")
         [info_F None] world0)
  = Return {| queryRange := []; definitions := [] |}.
Proof.
  apply (C4_spread_without_match_is_empty spread_text (spread_of "G")
           [info_F None] world0).
  reflexivity.
Defined.

(** C5.  The spread [...G] with the one known fragment [F] has no match: the
    resolver returns the empty result, and the error stream is as it was;
    no "Definition not found" line has been written. *)
Theorem C5_lookup_miss_writes_no_diagnostic :
  filter (declares (spread_of "G")) [info_F None] = []
  /\ getDefinitionQueryResultForFragmentSpread spread_text (spread_of "G")
       [info_F None] world0
     = (Return {| queryRange := []; definitions := [] |},
        {| next_ref := 4; stderr := [] |}).
Proof. split; reflexivity. Qed.

(** C9.  The results depend on the inputs alone: the spread resolver returns
    the same result in any two worlds, the definition-node resolver is a
    function of its arguments, and the preview is the same under any two
    file systems that deliver the same contents for the definition's
    path. *)
Theorem C9_results_depend_on_inputs_only
  (text : jsstring) (fragment : FragmentSpreadNode)
  (dependencies : list FragmentInfo) (w1 w2 : World)
  (p1 p2 : Uri) (t1 t2 : jsstring) (d1 d2 : DefinitionNode)
  (fs1 fs2 : FileSystem) (definition : Definition_) :
  p1 = p2 -> t1 = t2 -> d1 = d2 ->
  fs1 (path definition) = fs2 (path definition) ->
  fst (getDefinitionQueryResultForFragmentSpread text fragment dependencies w1)
  = fst (getDefinitionQueryResultForFragmentSpread text fragment dependencies w2)
  /\ getDefinitionQueryResultForDefinitionNode p1 t1 d1
     = getDefinitionQueryResultForDefinitionNode p2 t2 d2
  /\ getDefinitionPreview fs1 definition = getDefinitionPreview fs2 definition.
Proof.
  intros -> -> -> Hfs. split; [|split].
  - rewrite !spread_run.
    destruct (mapO build_for (filter (declares fragment) dependencies));
      reflexivity.
  - reflexivity.
  - unfold getDefinitionPreview, readFile. now rewrite Hfs.
Qed.

Lemma C9_results_depend_on_inputs_only_witness :
  fst (getDefinitionQueryResultForFragmentSpread spread_text (spread_of "F")
         [info_F None] world0)
  = fst (getDefinitionQueryResultForFragmentSpread spread_text (spread_of "F")
           [info_F None] {| next_ref := 7; stderr := [of_string "earlier"] |})
  /\ getDefinitionQueryResultForDefinitionNode [] two_queries query_B
     = getDefinitionQueryResultForDefinitionNode [] two_queries query_B
  /\ getDefinitionPreview sample_fs (definition_at (of_string "a.js") 0)
     = getDefinitionPreview other_fs (definition_at (of_string "a.js") 0).
Proof.
  apply (C9_results_depend_on_inputs_only spread_text (spread_of "F")
           [info_F None] world0
           {| next_ref := 7; stderr := [of_string "earlier"] |}
           [] [] two_queries two_queries query_B query_B
           sample_fs other_fs (definition_at (of_string "a.js") 0));
    reflexivity.
Defined.

(** C10.  A matched known fragment whose [filePath] is absent gets a
    definition whose [path], and with it [projectRoot], is the empty string;
    the resolver neither throws for it nor drops the field. *)
Theorem C10_absent_file_path_becomes_empty_string
  (text : jsstring) (fragment : FragmentSpreadNode)
  (dependencies : list FragmentInfo) (w : World) :
  Forall has_name_loc (filter (declares fragment) dependencies) ->
  exists r,
    fst (getDefinitionQueryResultForFragmentSpread text fragment dependencies w)
    = Return r
    /\ Forall2 (fun fi d =>
                  filePath fi = None -> path d = [] /\ projectRoot d = [])
               (filter (declares fragment) dependencies) (definitions r).
Proof.
  intros Hloc. destruct (build_all _ Hloc) as (defs & E & F).
  eexists. split; [rewrite spread_run, E; reflexivity|].
  simpl. eapply Forall2_impl; [|exact F].
  intros fi d (Hp & Hr & _) Hnone. rewrite Hp, Hr, Hnone. split; reflexivity.
Qed.

Lemma C10_absent_file_path_becomes_empty_string_witness :
  exists r,
    fst (getDefinitionQueryResultForFragmentSpread spread_text (spread_of "F")
           [info_F None] world0)
    = Return r
    /\ Forall2 (fun fi d =>
                  filePath fi = None -> path d = [] /\ projectRoot d = [])
               (filter (declares (spread_of "F")) [info_F None]) (definitions r).
Proof.
  apply (C10_absent_file_path_becomes_empty_string spread_text (spread_of "F")
           [info_F None] world0).
  repeat constructor; discriminate.
Defined.

(** ** More on the preview extractor *)

Lemma scanned_window lines start j :
  j <= MAX_PREVIEW_LINES ->
  scanned (scanned lines start MAX_PREVIEW_LINES) 0 j = scanned lines start j.
Proof.
  intros Hj. unfold scanned. cbn [skipn].
  rewrite firstn_firstn. now rewrite Nat.min_l.
Qed.

Lemma line_at_window lines start k :
  k < MAX_PREVIEW_LINES ->
  line_at (scanned lines start MAX_PREVIEW_LINES) k = line_at lines (start + k).
Proof.
  intros Hk. unfold line_at, scanned. rewrite nth_firstn.
  rewrite (proj2 (Nat.ltb_lt _ _) Hk). apply nth_skipn_add.
Qed.

(** The stop test reads the window only. *)
Lemma stops_at_window lines start k :
  k < MAX_PREVIEW_LINES ->
  stops_at (scanned lines start MAX_PREVIEW_LINES) 0 k = stops_at lines start k.
Proof.
  intros Hk. unfold stops_at. cbn [Nat.add].
  rewrite scanned_window by lia.
  rewrite (line_at_window lines start k Hk).
  assert (H0 : 0 < MAX_PREVIEW_LINES) by (unfold MAX_PREVIEW_LINES; lia).
  rewrite (line_at_window lines start 0 H0), Nat.add_0_r.
  reflexivity.
Qed.

Lemma window_length lines start :
  Nat.min MAX_PREVIEW_LINES
          (length (scanned lines start MAX_PREVIEW_LINES) - 0)
  = Nat.min MAX_PREVIEW_LINES (length lines - start).
Proof. rewrite scanned_length. lia. Qed.

(** The buffer is a function of the window alone: scanning a file from
    [start] gives what scanning its (at most) 10 lines from [start] on,
    taken as a file of their own, gives from line 0. *)
Lemma preview_buffer_window lines start :
  preview_buffer lines start
  = preview_buffer (scanned lines start MAX_PREVIEW_LINES) 0.
Proof.
  set (W := scanned lines start MAX_PREVIEW_LINES).
  destruct (preview_buffer_cases lines start) as [(k & Hk & Hs & Hf & E)|[Hn E]];
  destruct (preview_buffer_cases W 0) as [(k' & Hk' & Hs' & Hf' & E')|[Hn' E']];
  subst W; rewrite window_length in *; rewrite E, E'.
  - rewrite stops_at_window in Hs' by lia.
    rewrite scanned_window by lia.
    destruct (Nat.lt_trichotomy k k') as [H|[->|H]]; [|reflexivity|].
    + specialize (Hf' k H). rewrite stops_at_window in Hf' by lia. congruence.
    + rewrite Hf in Hs' by assumption. discriminate.
  - specialize (Hn' k Hk). rewrite stops_at_window in Hn' by lia. congruence.
  - rewrite stops_at_window in Hs' by lia.
    rewrite Hn in Hs' by assumption. discriminate.
  - rewrite scanned_window by lia. reflexivity.
Qed.

(** X1.  The preview never reads outside its window: two files (and rows)
    whose 10 lines from the row on are the same give the same buffer,
    whatever comes before the row or after the tenth line. *)
Theorem X1_preview_reads_only_its_window
  (lines1 lines2 : list jsstring) (start1 start2 : nat) :
  scanned lines1 start1 MAX_PREVIEW_LINES = scanned lines2 start2 MAX_PREVIEW_LINES ->
  preview_buffer lines1 start1 = preview_buffer lines2 start2.
Proof.
  intros H.
  rewrite (preview_buffer_window lines1 start1),
          (preview_buffer_window lines2 start2).
  now rewrite H.
Qed.

Lemma X1_preview_reads_only_its_window_witness :
  preview_buffer (split_lines sample_call) 0
  = preview_buffer (of_string "  if (x) {" :: split_lines sample_call) 1.
Proof.
  apply (X1_preview_reads_only_its_window
           (split_lines sample_call) (of_string "  if (x) {" :: split_lines sample_call)
           0 1).
  reflexivity.
Defined.

Lemma stops_at_first lines start :
  start < length lines ->
  stops_at lines start 0
  = (countOccurrences (line_at lines start) OPEN_PAREN
       =? countOccurrences (line_at lines start) CLOSE_PAREN).
Proof.
  intros H. unfold stops_at.
  rewrite (scanned_S lines start 0) by lia.
  rewrite !total_snoc, Nat.add_0_r.
  rewrite (proj2 (Nat.leb_le _ _) (Nat.le_refl _)).
  reflexivity.
Qed.

(** X2.  On the start line the indentation test compares the line with
    itself, so only the parentheses count: for a row inside the file the
    buffer is a single line exactly when the start line has as many ")" as
    "(", or is the last line of the file. *)
Theorem X2_single_line_iff_start_line_balanced
  (lines : list jsstring) (start : nat) :
  start < length lines ->
  (length (preview_buffer lines start) = 1
   <-> (countOccurrences (line_at lines start) OPEN_PAREN
        = countOccurrences (line_at lines start) CLOSE_PAREN
        \/ S start = length lines))
  /\ (length (preview_buffer lines start) = 1 ->
      preview_buffer lines start = [line_at lines start]).
Proof.
  intros Hstart.
  assert (S1 : scanned lines start 1 = [line_at lines start]).
  { rewrite (scanned_S lines start 0), Nat.add_0_r by lia. reflexivity. }
  pose proof (stops_at_first lines start Hstart) as H0.
  destruct (preview_buffer_cases lines start) as [(k & Hk & Hs & Hf & E)|[Hn E]];
    rewrite E, scanned_length; unfold MAX_PREVIEW_LINES in *.
  - split; [split|].
    + intros Hl. assert (k = 0) by lia. subst k.
      rewrite H0 in Hs. left. now apply Nat.eqb_eq.
    + intros [Hb|Hlast]; [|lia].
      apply Nat.eqb_eq in Hb. rewrite <- H0 in Hb.
      destruct k as [|k]; [lia|].
      rewrite Hf in Hb by lia. discriminate.
    + intros Hl. assert (k = 0) by lia. subst k. exact S1.
  - split; [split|].
    + intros Hl. right. lia.
    + intros [Hb|Hlast]; [|lia].
      apply Nat.eqb_eq in Hb. rewrite <- H0 in Hb.
      rewrite Hn in Hb by lia. discriminate.
    + intros Hl.
      replace (Nat.min 10 (length lines - start)) with 1 by lia. exact S1.
Qed.

Lemma X2_single_line_iff_start_line_balanced_witness :
  (length (preview_buffer (split_lines sample_call) 2) = 1
   <-> (countOccurrences (line_at (split_lines sample_call) 2) OPEN_PAREN
        = countOccurrences (line_at (split_lines sample_call) 2) CLOSE_PAREN
        \/ 3 = length (split_lines sample_call)))
  /\ (length (preview_buffer (split_lines sample_call) 2) = 1 ->
      preview_buffer (split_lines sample_call) 2
      = [line_at (split_lines sample_call) 2]).
Proof.
  apply (X2_single_line_iff_start_line_balanced (split_lines sample_call) 2).
  vm_compute. lia.
Defined.

(** X3.  A buffer that ends before the cap and before the end of the file
    ended on the stop test: over its lines the "(" and ")" are equally
    many, and its last line is indented no deeper than the start line. *)
Theorem X3_short_preview_is_balanced (lines : list jsstring) (start : nat) :
  length (preview_buffer lines start)
    < Nat.min MAX_PREVIEW_LINES (length lines - start) ->
  total OPEN_PAREN (preview_buffer lines start)
  = total CLOSE_PAREN (preview_buffer lines start)
  /\ getIndentLevel (last (preview_buffer lines start) [])
     <= getIndentLevel (line_at lines start).
Proof.
  intros Hshort.
  destruct (preview_buffer_cases lines start) as [(k & Hk & Hs & _ & E)|[_ E]];
    rewrite E in *.
  - unfold stops_at in Hs. apply andb_true_iff in Hs as [Hi Hp].
    apply Nat.leb_le in Hi. apply Nat.eqb_eq in Hp.
    split; [exact Hp|].
    rewrite (scanned_S lines start k), last_last by lia. exact Hi.
  - rewrite scanned_length in Hshort. lia.
Qed.

Lemma X3_short_preview_is_balanced_witness :
  total OPEN_PAREN (preview_buffer (split_lines sample_call) 0)
  = total CLOSE_PAREN (preview_buffer (split_lines sample_call) 0)
  /\ getIndentLevel (last (preview_buffer (split_lines sample_call) 0) [])
     <= getIndentLevel (line_at (split_lines sample_call) 0).
Proof.
  apply (X3_short_preview_is_balanced (split_lines sample_call) 0).
  vm_compute. lia.
Defined.

(** X4.  A row past the last line is not an error: [lines[start]] is
    [undefined], the loop body never runs, and the call returns the empty
    string. *)
Theorem X4_row_past_the_end_gives_empty_preview
  (fs : FileSystem) (definition : Definition_) (contents : jsstring) :
  fs (path definition) = Some contents ->
  length (split_lines contents) <= row (position definition) ->
  preview_buffer (split_lines contents) (row (position definition)) = []
  /\ getDefinitionPreview fs definition = Return [].
Proof.
  intros Hfs Hrow.
  assert (E : preview_buffer (split_lines contents) (row (position definition)) = []).
  { unfold preview_buffer, MAX_PREVIEW_LINES. cbn [scan].
    rewrite (proj2 (Nat.ltb_ge _ _) Hrow), andb_false_r. reflexivity. }
  split; [exact E|].
  rewrite (getDefinitionPreview_eq fs definition contents Hfs), E.
  reflexivity.
Qed.

Lemma X4_row_past_the_end_gives_empty_preview_witness :
  preview_buffer (split_lines sample_call) 4 = []
  /\ getDefinitionPreview sample_fs (definition_at (of_string "a.js") 4) = Return [].
Proof.
  apply (X4_row_past_the_end_gives_empty_preview
           sample_fs (definition_at (of_string "a.js") 4) sample_call).
  - reflexivity.
  - vm_compute. lia.
Defined.

(** ** More on the fragment spread resolver *)

Lemma jsstring_eqb_eq a b : jsstring_eqb a b = true <-> a = b.
Proof.
  unfold jsstring_eqb. destruct (list_eq_dec N.eq_dec a b); split;
    congruence.
Qed.

Lemma build_for_cases (fi : FragmentInfo) :
  match name_loc (fragment_name (definition fi)) with
  | Some nl =>
      build_for fi
      = Return {| path := or_empty (filePath fi);
                  position := offsetToPoint (content fi) (loc_start nl);
                  range := locToRange (content fi) (fragment_loc (definition fi));
                  name := value (fragment_name (definition fi));
                  language := LANGUAGE;
                  projectRoot := or_empty (filePath fi) |}
  | None =>
      build_for fi
      = Throw (InvariantViolation "Location for Name node expected.")
  end.
Proof.
  unfold build_for, getDefinitionForFragmentDefinition. simpl.
  destruct (name_loc (fragment_name (definition fi))); reflexivity.
Qed.

(** Mapping the builder over fragments: a definition for each, in order, or
    the invariant of the first one whose name has no location. *)
Lemma mapO_build_for (l : list FragmentInfo) :
  (exists defs,
     mapO build_for l = Return defs
     /\ Forall2 (fun fi d => build_for fi = Return d) l defs)
  \/ (mapO build_for l
      = Throw (InvariantViolation "Location for Name node expected.")
      /\ Exists (fun fi => name_loc (fragment_name (definition fi)) = None) l).
Proof.
  induction l as [|fi l IH].
  - left. exists []. split; [reflexivity|constructor].
  - pose proof (build_for_cases fi) as B. cbn [mapO].
    destruct (name_loc (fragment_name (definition fi))) as [nl|] eqn:En.
    + rewrite B. cbn [obind].
      destruct IH as [(defs & E & F)|[E X]].
      * left. rewrite E. eexists. split; [reflexivity|].
        constructor; [exact B|exact F].
      * right. rewrite E. split; [reflexivity|]. now apply Exists_cons_tl.
    + right. rewrite B. split; [reflexivity|]. now apply Exists_cons_hd.
Qed.

Lemma build_for_Return_name_loc fi d :
  build_for fi = Return d -> has_name_loc fi.
Proof.
  intros H. pose proof (build_for_cases fi) as B. unfold has_name_loc.
  destruct (name_loc (fragment_name (definition fi))); [discriminate|].
  rewrite B in H. discriminate.
Qed.

(** X5.  The spread resolver returns exactly when every known fragment
    that declares the spread's name has a location on its name node, and
    then with one definition and one query range per such fragment;
    otherwise the whole call throws the invariant "Location for Name node
    expected.", whatever the other matches are.  Fragments of another name
    never make it fail. *)
Theorem X5_spread_returns_or_throws_location_invariant
  (text : jsstring) (fragment : FragmentSpreadNode)
  (dependencies : list FragmentInfo) (w : World) :
  match fst (getDefinitionQueryResultForFragmentSpread
               text fragment dependencies w) with
  | Return r =>
      Forall has_name_loc (filter (declares fragment) dependencies)
      /\ length (definitions r)
         = length (filter (declares fragment) dependencies)
      /\ length (queryRange r) = length (definitions r)
  | Throw e =>
      e = InvariantViolation "Location for Name node expected."
      /\ Exists (fun fi => declares fragment fi = true
                           /\ name_loc (fragment_name (definition fi)) = None)
                dependencies
  end.
Proof.
  rewrite spread_run.
  destruct (mapO_build_for (filter (declares fragment) dependencies))
    as [(defs & E & F)|[E X]]; rewrite E; cbn [fst].
  - cbn [definitions queryRange]. split; [|split].
    + clear E. induction F as [|fi d l defs B F IH]; constructor; auto.
      now apply (build_for_Return_name_loc fi d).
    + symmetry. exact (Forall2_length F).
    + apply repeat_length.
  - split; [reflexivity|].
    apply Exists_exists in X as (fi & Hin & Hnone).
    apply filter_In in Hin as [Hin Hd].
    apply Exists_exists. exists fi. auto.
Qed.

(** X6.  Every definition the spread resolver returns stands for one
    fragment that declares the name, in the order of the known-fragments
    list: it bears the spread's name and the language tag, its path and
    project root are the fragment's file path (or the empty string), and
    its position and range are computed in the text of the declaring file,
    not in the referencing text. *)
Theorem X6_spread_definitions_describe_the_matches
  (text : jsstring) (fragment : FragmentSpreadNode)
  (dependencies : list FragmentInfo) (w : World) (r : DefinitionQueryResult) :
  fst (getDefinitionQueryResultForFragmentSpread text fragment dependencies w)
  = Return r ->
  Forall2 (fun fi d =>
             name d = value (spread_name fragment)
             /\ language d = LANGUAGE
             /\ path d = or_empty (filePath fi)
             /\ projectRoot d = path d
             /\ range d = locToRange (content fi) (fragment_loc (definition fi))
             /\ exists nl,
                  name_loc (fragment_name (definition fi)) = Some nl
                  /\ position d = offsetToPoint (content fi) (loc_start nl))
          (filter (declares fragment) dependencies) (definitions r).
Proof.
  rewrite spread_run.
  destruct (mapO_build_for (filter (declares fragment) dependencies))
    as [(defs & E & F)|[E X]]; rewrite E; cbn [fst]; [|discriminate].
  intros H. injection H as <-. cbn [definitions].
  assert (D : Forall (fun fi => declares fragment fi = true)
                     (filter (declares fragment) dependencies)).
  { apply Forall_forall. intros fi Hin. now apply filter_In in Hin. }
  clear E. induction F as [|fi d l defs B F IH]; constructor.
  - inversion D as [|? ? Hd _]; subst.
    apply jsstring_eqb_eq in Hd.
    pose proof (build_for_cases fi) as C.
    destruct (name_loc (fragment_name (definition fi))) as [nl|];
      rewrite C in B; [|discriminate].
    injection B as <-. cbn. repeat split; auto. now exists nl.
  - apply IH. now inversion D.
Qed.

Lemma X6_spread_definitions_describe_the_matches_witness :
  Forall2 (fun fi d =>
             name d = value (spread_name (spread_of "F"))
             /\ language d = LANGUAGE
             /\ path d = or_empty (filePath fi)
             /\ projectRoot d = path d
             /\ range d = locToRange (content fi) (fragment_loc (definition fi))
             /\ exists nl,
                  name_loc (fragment_name (definition fi)) = Some nl
                  /\ position d = offsetToPoint (content fi) (loc_start nl))
          (filter (declares (spread_of "F"))
                  [info_F (Some (of_string "a.graphql")); info_F None])
          (map (fun p =>
                  {| path := p;
                     position := {| row := 0; column := 9 |};
                     range := {| range_start := {| row := 0; column := 0 |};
                                 range_end := {| row := 0; column := 21 |} |};
                     name := of_string "F";
                     language := of_string "GraphQL";
                     projectRoot := p |})
               [of_string "a.graphql"; []]).
Proof.
  apply (X6_spread_definitions_describe_the_matches spread_text (spread_of "F")
           [info_F (Some (of_string "a.graphql")); info_F None] world0
           {| queryRange :=
                repeat (locToRange spread_text {| loc_start := 10; loc_end := 14 |}) 2;
              definitions :=
                map (fun p =>
                       {| path := p;
                          position := {| row := 0; column := 9 |};
                          range := {| range_start := {| row := 0; column := 0 |};
                                      range_end := {| row := 0; column := 21 |} |};
                          name := of_string "F";
                          language := of_string "GraphQL";
                          projectRoot := p |})
                    [of_string "a.graphql"; []] |}).
  reflexivity.
Defined.

(** X7.  The definitions depend on the spread's name and the known
    fragments only: with the same name, another referencing text, another
    spread location and another world give the same definitions, or the
    same error. *)
Theorem X7_spread_definitions_ignore_the_referencing_text
  (text1 text2 : jsstring) (fragment1 fragment2 : FragmentSpreadNode)
  (dependencies : list FragmentInfo) (w1 w2 : World) :
  value (spread_name fragment1) = value (spread_name fragment2) ->
  match
    fst (getDefinitionQueryResultForFragmentSpread text1 fragment1 dependencies w1),
    fst (getDefinitionQueryResultForFragmentSpread text2 fragment2 dependencies w2)
  with
  | Return r1, Return r2 => definitions r1 = definitions r2
  | Throw e1, Throw e2 => e1 = e2
  | _, _ => False
  end.
Proof.
  intros Hname. rewrite !spread_run.
  assert (D : filter (declares fragment1) dependencies
              = filter (declares fragment2) dependencies).
  { apply filter_ext. intros fi. unfold declares. now rewrite Hname. }
  rewrite D.
  destruct (mapO build_for (filter (declares fragment2) dependencies));
    reflexivity.
Qed.

Lemma X7_spread_definitions_ignore_the_referencing_text_witness :
  match
    fst (getDefinitionQueryResultForFragmentSpread spread_text (spread_of "F")
           [info_F None] world0),
    fst (getDefinitionQueryResultForFragmentSpread two_queries
           {| spread_loc := {| loc_start := 3; loc_end := 5 |};
              spread_name := {| name_loc := None; value := of_string "F" |} |}
           [info_F None] {| next_ref := 9; stderr := [of_string "x"] |})
  with
  | Return r1, Return r2 => definitions r1 = definitions r2
  | Throw e1, Throw e2 => e1 = e2
  | _, _ => False
  end.
Proof.
  apply (X7_spread_definitions_ignore_the_referencing_text
           spread_text two_queries (spread_of "F")
           {| spread_loc := {| loc_start := 3; loc_end := 5 |};
              spread_name := {| name_loc := None; value := of_string "F" |} |}
           [info_F None] world0 {| next_ref := 9; stderr := [of_string "x"] |}).
  reflexivity.
Defined.

(** X8.  Whatever the inputs, and whether the call returns or throws, the
    spread resolver leaves the error stream as it found it: the write to
    [process.stderr] sits behind a comparison of two distinct arrays and is
    never reached. *)
Theorem X8_spread_never_writes_to_stderr
  (text : jsstring) (fragment : FragmentSpreadNode)
  (dependencies : list FragmentInfo) (w : World) :
  stderr (snd (getDefinitionQueryResultForFragmentSpread
                 text fragment dependencies w))
  = stderr w.
Proof.
  rewrite spread_run.
  destruct (mapO build_for (filter (declares fragment) dependencies));
    reflexivity.
Qed.

(** ** The Buck task runner: which tasks are enabled *)

Lemma endsWith_iff (s search : jsstring) :
  Buck.endsWith s search = true <-> exists pre, s = pre ++ search.
Proof.
  unfold Buck.endsWith. split.
  - destruct (length s <? length search); [discriminate|].
    intros H. apply jsstring_eqb_eq in H.
    set (n := length s - length search) in *.
    exists (firstn n s). rewrite <- H. symmetry. apply firstn_skipn.
  - intros [pre ->]. rewrite length_app.
    rewrite (proj2 (Nat.ltb_ge _ _)) by lia.
    apply jsstring_eqb_eq.
    replace (length pre + length search - length search) with (length pre) by lia.
    rewrite skipn_app, skipn_all, Nat.sub_diag. reflexivity.
Qed.

Lemma jsstring_eqb_neq a b : a <> b -> jsstring_eqb a b = false.
Proof.
  intros H. destruct (jsstring_eqb a b) eqn:E; [|reflexivity].
  apply jsstring_eqb_eq in E. contradiction.
Qed.

(** X9.  Only "run" and "debug" depend on the rule type: every other task
    type, "build" and "test" among them, is enabled for every rule. *)
Theorem X9_only_run_and_debug_depend_on_the_rule
  (taskType ruleType : jsstring) :
  taskType <> of_string "run" ->
  taskType <> of_string "debug" ->
  Buck.shouldEnableTask taskType ruleType = true.
Proof.
  intros Hrun Hdebug. unfold Buck.shouldEnableTask.
  now rewrite (jsstring_eqb_neq _ _ Hrun), (jsstring_eqb_neq _ _ Hdebug).
Qed.

Lemma X9_only_run_and_debug_depend_on_the_rule_witness :
  Buck.shouldEnableTask (of_string "build") (of_string "java_library") = true.
Proof.
  apply (X9_only_run_and_debug_depend_on_the_rule
           (of_string "build") (of_string "java_library")); discriminate.
Defined.

Lemma run_enabled_debug_enabled (ruleType : jsstring) :
  Buck.shouldEnableTask (of_string "run") ruleType = true ->
  Buck.shouldEnableTask (of_string "debug") ruleType = true.
Proof.
  change (Buck.endsWith ruleType (of_string "binary") = true ->
          Buck.endsWith ruleType (of_string "binary")
          || Buck.endsWith ruleType (of_string "test") = true).
  intros ->. reflexivity.
Qed.

(** X10.  "run" is enabled exactly for the rule types that end in "binary",
    and "debug" exactly for those that end in "binary" or in "test"; so a
    rule that can be run can be debugged. *)
Theorem X10_run_needs_binary_debug_binary_or_test (ruleType : jsstring) :
  (Buck.shouldEnableTask (of_string "run") ruleType = true
   <-> exists pre, ruleType = pre ++ of_string "binary")
  /\ (Buck.shouldEnableTask (of_string "debug") ruleType = true
      <-> (exists pre, ruleType = pre ++ of_string "binary")
          \/ (exists pre, ruleType = pre ++ of_string "test"))
  /\ (Buck.shouldEnableTask (of_string "run") ruleType = true ->
      Buck.shouldEnableTask (of_string "debug") ruleType = true).
Proof.
  assert (R : Buck.shouldEnableTask (of_string "run") ruleType
              = Buck.endsWith ruleType (of_string "binary")) by reflexivity.
  assert (D : Buck.shouldEnableTask (of_string "debug") ruleType
              = Buck.endsWith ruleType (of_string "binary")
                || Buck.endsWith ruleType (of_string "test")) by reflexivity.
  rewrite R, D, orb_true_iff, !endsWith_iff.
  split; [reflexivity|]. split; [reflexivity|]. intros H. now left.
Qed.

Lemma X10_run_needs_binary_debug_binary_or_test_witness :
  Buck.shouldEnableTask (of_string "debug") (of_string "apple_binary") = true.
Proof.
  apply (proj2 (proj2 (X10_run_needs_binary_debug_binary_or_test
                         (of_string "apple_binary")))).
  reflexivity.
Defined.

Section TaskList.

Variables TaskSettings ResolvedBuildTarget : Type.
Variable state : Buck.AppState TaskSettings ResolvedBuildTarget.

(** X11.  The assertion inside the task-list computation can never fail:
    for every state of the store the list is computed, and it is the four
    tasks of [TASKS] in their order, each with its own label, description
    and icon; only the [disabled] flags vary. *)
Theorem X11_task_list_is_always_the_four_tasks :
  exists l, Buck.taskList state = Return l /\ map Buck.task l = Buck.TASKS.
Proof.
  unfold Buck.taskList.
  destruct (Buck.isLoadingPlatforms state), (Buck.buildRuleType state),
    (Buck.selectedDeploymentTarget state); cbn; eexists; split; reflexivity.
Qed.

(** X12.  While the platforms are loading, or as long as no build rule is
    resolved, all four tasks are disabled, with or without a deployment
    target. *)
Theorem X12_tasks_disabled_while_loading_or_unresolved :
  Buck.isLoadingPlatforms state = true \/ Buck.buildRuleType state = None ->
  Buck.taskList state
  = Return (map (fun t => {| Buck.task := t; Buck.disabled := true |})
                Buck.TASKS).
Proof.
  unfold Buck.taskList. intros [H|H]; rewrite H.
  - destruct (Buck.selectedDeploymentTarget state); reflexivity.
  - rewrite orb_true_r. destruct (Buck.selectedDeploymentTarget state);
      reflexivity.
Qed.

(** X13.  With a deployment target selected (platforms loaded, rule
    resolved) the platform's task set alone decides: a task is disabled
    exactly when the set lacks its type, and the rule type is not looked
    at, not even for "build". *)
Theorem X13_platform_task_set_decides
  (rule : Buck.ResolvedRuleType ResolvedBuildTarget)
  (target : Buck.DeploymentTarget) :
  Buck.isLoadingPlatforms state = false ->
  Buck.buildRuleType state = Some rule ->
  Buck.selectedDeploymentTarget state = Some target ->
  Buck.taskList state
  = Return (map (fun t =>
                   {| Buck.task := t;
                      Buck.disabled :=
                        negb (Buck.has
                                (Buck.tasksForDevice (Buck.platform target)
                                                     (Buck.device target))
                                (Buck.type t)) |})
                Buck.TASKS).
Proof.
  unfold Buck.taskList. intros -> -> ->. reflexivity.
Qed.

(** X14.  Without a deployment target (platforms loaded, rule resolved)
    "build" and "test" are enabled whatever the rule is, and "debug" is
    enabled whenever "run" is. *)
Theorem X14_default_rule_enables_build_and_test
  (rule : Buck.ResolvedRuleType ResolvedBuildTarget) :
  Buck.isLoadingPlatforms state = false ->
  Buck.buildRuleType state = Some rule ->
  Buck.selectedDeploymentTarget state = None ->
  exists run_disabled debug_disabled,
    Buck.taskList state
    = Return (map (fun p => {| Buck.task := fst p; Buck.disabled := snd p |})
                  (combine Buck.TASKS
                           [false; run_disabled; false; debug_disabled]))
    /\ (run_disabled = false -> debug_disabled = false).
Proof.
  unfold Buck.taskList. intros -> -> ->. cbn.
  do 2 eexists. split; [reflexivity|].
  intros H. apply negb_false_iff in H. apply negb_false_iff.
  now apply (run_enabled_debug_enabled (Buck.rule_type rule)).
Qed.

End TaskList.

Lemma X12_tasks_disabled_while_loading_or_unresolved_witness :
  Buck.taskList (sample_state true (Some sample_target))
  = Return (map (fun t => {| Buck.task := t; Buck.disabled := true |})
                Buck.TASKS).
Proof.
  apply (X12_tasks_disabled_while_loading_or_unresolved _ _
           (sample_state true (Some sample_target))).
  left. reflexivity.
Defined.

Lemma X13_platform_task_set_decides_witness :
  Buck.taskList (sample_state false (Some sample_target))
  = Return (map (fun t =>
                   {| Buck.task := t;
                      Buck.disabled :=
                        negb (Buck.has
                                (Buck.tasksForDevice (Buck.platform sample_target)
                                                     (Buck.device sample_target))
                                (Buck.type t)) |})
                Buck.TASKS).
Proof.
  apply (X13_platform_task_set_decides _ _
           (sample_state false (Some sample_target)) sample_rule sample_target);
    reflexivity.
Defined.

Lemma X14_default_rule_enables_build_and_test_witness :
  exists run_disabled debug_disabled,
    Buck.taskList (sample_state false None)
    = Return (map (fun p => {| Buck.task := fst p; Buck.disabled := snd p |})
                  (combine Buck.TASKS
                           [false; run_disabled; false; debug_disabled]))
    /\ (run_disabled = false -> debug_disabled = false).
Proof.
  apply (X14_default_rule_enables_build_and_test _ _
           (sample_state false None) sample_rule); reflexivity.
Defined.

(** The sample platform offers "build" and "debug" only: with it selected,
    "run" and "test" are disabled although the rule is a binary. *)
Example task_list_with_platform :
  option_map (map Buck.disabled)
    (match Buck.taskList (sample_state false (Some sample_target)) with
     | Return l => Some l
     | Throw _ => None
     end)
  = Some [false; true; true; false].
Proof. reflexivity. Qed.

(** ** The Buck task runner: saving and restoring *)

Section Serialize.

Variables TaskSettings ResolvedBuildTarget : Type.
Variable noSettings : TaskSettings.

(** X15.  Saving a store that still holds its initial state forwards the
    session: the platform and device names of the saved state are those the
    runner was constructed with, the build target is the constructed one
    (the empty string for a missing one) and the settings are the
    constructed ones (the empty object for missing ones). *)
Theorem X15_saving_the_initial_state_forwards_the_session
  (saved : Buck.SerializedState TaskSettings) :
  Buck.serialize
    {| Buck._store :=
         Some (Buck.initialState ResolvedBuildTarget noSettings saved) |}
  = Some {| Buck.serialized_buildTarget :=
              Some (or_empty (Buck.serialized_buildTarget saved));
            Buck.serialized_taskSettings :=
              Some (match Buck.serialized_taskSettings saved with
                    | Some settings => settings
                    | None => noSettings
                    end);
            Buck.selectedPlatformName := Buck.selectedPlatformName saved;
            Buck.selectedDeviceName := Buck.selectedDeviceName saved |}.
Proof. reflexivity. Qed.

(** X16.  Saving and restoring keeps what the user chose: a runner with a
    store always saves something, and the initial state made from it has
    the same build target and task settings as the saved store; its
    last-session platform and device names are those of the selected
    deployment target when there is one, and the stored last-session names
    otherwise.  Nothing else is carried over: the restored state has no
    Buck root, no rule, no selected target, and loads nothing. *)
Theorem X16_restoring_what_was_saved
  (state : Buck.AppState TaskSettings ResolvedBuildTarget) :
  exists saved,
    Buck.serialize {| Buck._store := Some state |} = Some saved
    /\ let restored :=
         Buck.initialState ResolvedBuildTarget noSettings saved in
       Buck.buildTarget restored = Buck.buildTarget state
       /\ Buck.taskSettings restored = Buck.taskSettings state
       /\ Buck.lastSessionPlatformName restored
          = match Buck.selectedDeploymentTarget state with
            | Some target => Some (Buck.platform_name (Buck.platform target))
            | None => Buck.lastSessionPlatformName state
            end
       /\ Buck.lastSessionDeviceName restored
          = match Buck.selectedDeploymentTarget state with
            | Some target => option_map Buck.device_name (Buck.device target)
            | None => Buck.lastSessionDeviceName state
            end
       /\ Buck.buckRoot restored = None
       /\ Buck.buildRuleType restored = None
       /\ Buck.selectedDeploymentTarget restored = None
       /\ Buck.isLoadingPlatforms restored = false.
Proof.
  unfold Buck.serialize. cbn [Buck._store].
  destruct (Buck.selectedDeploymentTarget state) as [target|];
    [destruct (Buck.device target)|];
    (eexists; split; [reflexivity|]); cbn;
    destruct (Buck.buildTarget state); repeat split; reflexivity.
Qed.

End Serialize.

(** ** The Buck task runner: running a task *)

Section RunTask.

Variables TaskSettings ResolvedBuildTarget : Type.
Variable state : Buck.AppState TaskSettings ResolvedBuildTarget.

(** X17.  A task type other than "build", "test", "run" and "debug" is
    rejected with "Invalid task type" before anything happens: the console
    is not toggled and nothing is logged. *)
Theorem X17_invalid_task_type_is_rejected_first (taskType : jsstring) :
  taskType <> of_string "build" ->
  taskType <> of_string "test" ->
  taskType <> of_string "run" ->
  taskType <> of_string "debug" ->
  Buck.runTask state taskType
  = (Throw (InvariantViolation "Invalid task type"), []).
Proof.
  intros Hb Ht Hr Hd. unfold Buck.runTask.
  now rewrite (jsstring_eqb_neq _ _ Hb), (jsstring_eqb_neq _ _ Ht),
    (jsstring_eqb_neq _ _ Hr), (jsstring_eqb_neq _ _ Hd).
Qed.

Lemma valid_task_type (taskType : jsstring) :
  taskType = of_string "build" \/ taskType = of_string "test"
  \/ taskType = of_string "run" \/ taskType = of_string "debug" ->
  negb (jsstring_eqb taskType (of_string "build")
        || jsstring_eqb taskType (of_string "test")
        || jsstring_eqb taskType (of_string "run")
        || jsstring_eqb taskType (of_string "debug")) = false.
Proof. intros [ -> | [ -> | [ -> | -> ]]]; reflexivity. Qed.

(** X18.  For a valid task type the console toggle is dispatched before the
    state is checked: when the store has no Buck root (or an empty one) or
    no resolved build rule, the call throws with the toggle already sent
    and nothing logged. *)
Theorem X18_console_is_toggled_before_the_state_is_checked
  (taskType : jsstring) :
  taskType = of_string "build" \/ taskType = of_string "test"
  \/ taskType = of_string "run" \/ taskType = of_string "debug" ->
  Buck.buckRoot state = None \/ Buck.buckRoot state = Some []
  \/ Buck.buildRuleType state = None ->
  exists e, Buck.runTask state taskType = (Throw e, [Buck.ConsoleToggle]).
Proof.
  intros Hvalid Hstate. unfold Buck.runTask.
  rewrite (valid_task_type taskType Hvalid).
  destruct Hstate as [H|[H|H]]; rewrite H; cbn.
  - eexists; reflexivity.
  - eexists; reflexivity.
  - destruct (Buck.buckRoot state) as [[|c root]|]; cbn; eexists; reflexivity.
Qed.


End RunTask.

Lemma X17_invalid_task_type_is_rejected_first_witness :
  Buck.runTask (sample_state false None) (of_string "deploy")
  = (Throw (InvariantViolation "Invalid task type"), []).
Proof.
  apply (X17_invalid_task_type_is_rejected_first _ _
           (sample_state false None) (of_string "deploy")); discriminate.
Defined.

Lemma X18_console_is_toggled_before_the_state_is_checked_witness :
  exists e,
    Buck.runTask sample_fresh (of_string "build")
    = (Throw e, [Buck.ConsoleToggle]).
Proof.
  apply (X18_console_is_toggled_before_the_state_is_checked _ _
           sample_fresh (of_string "build")).
  - left. reflexivity.
  - left. reflexivity.
Defined.


(** What the sample debug task does and says. *)
Example run_debug_task :
  Buck.runTask (sample_state false (Some sample_target)) (of_string "debug")
  = (Return
       {| Buck.on_start :=
            Buck.PlatformRunTask sample_platform (of_string "debug")
              (of_string "//app:main")
              (Some {| Buck.device_name := of_string "iPhone" |});
          Buck.on_success :=
            Buck.Output (of_string "Debug succeeded.") (of_string "success");
          Buck.on_cancel :=
            Buck.Output (of_string "Debug stopped.") (of_string "warning");
          Buck.getTrackingData :=
            {| Buck.tracked_buckRoot := of_string "/repo";
               Buck.tracked_buildTarget := of_string "//app:main";
               Buck.tracked_taskSettings := tt |} |},
     [Buck.ConsoleToggle;
      Buck.Output
        (of_string "Resolving debug command for " ++ [Buck.DQUOTE]
           ++ of_string "//app:main" ++ [Buck.DQUOTE]
           ++ of_string " on " ++ [Buck.DQUOTE] ++ of_string "iOS: iPhone"
           ++ [Buck.DQUOTE])
        (of_string "log")]).
Proof. reflexivity. Qed.

(** ** The error reporter *)

Lemma disposed_mem handle l :
  existsb (Nat.eqb handle) l = true <-> In handle l.
Proof.
  rewrite existsb_exists. split.
  - intros (x & Hin & E). apply Nat.eqb_eq in E. now subst.
  - intros H. exists handle. split; [assumption|apply Nat.eqb_refl].
Qed.

(** What holds of every reachable world: the handles handed out are all
    disposed, except the one [disposable] refers to; and the registrations
    mirror [disposable]. *)
Lemma reachable_invariant w :
  ErrorReporter.reachable w ->
  (forall h, h < ErrorReporter.next_handle w ->
             In h (ErrorReporter.disposed w)
             \/ ErrorReporter.disposable w = Some h)
  /\ (forall h, In h (ErrorReporter.disposed w) ->
                h < ErrorReporter.next_handle w)
  /\ match ErrorReporter.disposable w with
     | Some h =>
         h < ErrorReporter.next_handle w
         /\ ~ In h (ErrorReporter.disposed w)
         /\ ErrorReporter.rejection_listener w = true
         /\ ErrorReporter.exception_handlers w = [h]
     | None =>
         ErrorReporter.rejection_listener w = false
         /\ ErrorReporter.exception_handlers w = []
     end.
Proof.
  induction 1 as [|w Hr (I1 & I2 & I3)|w handle Hr (I1 & I2 & I3) Hlt].
  - cbn. repeat split; intros; try lia; contradiction.
  - unfold ErrorReporter.installErrorReporter.
    destruct (ErrorReporter.disposable w) as [h|] eqn:Ed; cbn.
    + rewrite Ed. auto.
    + destruct I3 as [Hl Hh]. repeat split.
      * intros h Hh'. destruct (Nat.eq_dec h (ErrorReporter.next_handle w))
          as [->|Hne]; [now right|].
        destruct (I1 h) as [Hin|Hc]; [lia|now left|discriminate].
      * intros h Hin. apply I2 in Hin. lia.
      * lia.
      * intros Hin. apply I2 in Hin. lia.
      * now rewrite Hh.
  - unfold ErrorReporter.dispose.
    destruct (existsb (Nat.eqb handle) (ErrorReporter.disposed w)) eqn:Ex.
    + auto.
    + assert (Hnot : ~ In handle (ErrorReporter.disposed w)).
      { intros Hin. apply disposed_mem in Hin. congruence. }
      destruct (I1 handle Hlt) as [Hin|Hcur]; [contradiction|].
      rewrite Hcur in I3. destruct I3 as (_ & _ & _ & Hh).
      cbn. repeat split.
      * intros h Hh'. left.
        destruct (I1 h Hh') as [Hin|Hc]; [now right|].
        left. congruence.
      * intros h [<-|Hin]; [assumption|now apply I2].
      * rewrite Hh. cbn. now rewrite Nat.eqb_refl.
Qed.

(** X20.  In every world a program can reach by installing and disposing,
    the reporter's handlers are registered exactly while [disposable] is
    set, and never twice: either the window listener is on and atom has the
    one subscription of the current handle, or neither is registered. *)
Theorem X20_handlers_registered_exactly_while_installed
  (w : ErrorReporter.World) :
  ErrorReporter.reachable w ->
  match ErrorReporter.disposable w with
  | Some h =>
      ErrorReporter.rejection_listener w = true
      /\ ErrorReporter.exception_handlers w = [h]
      /\ ~ In h (ErrorReporter.disposed w)
  | None =>
      ErrorReporter.rejection_listener w = false
      /\ ErrorReporter.exception_handlers w = []
  end.
Proof.
  intros Hr. destruct (reachable_invariant w Hr) as (_ & _ & I3).
  destruct (ErrorReporter.disposable w); tauto.
Qed.

(** X21.  Installing fails, with "installErrorReporter was called multiple
    times." and without touching anything, exactly when a handle handed
    out earlier has not been disposed; once all are disposed it succeeds
    and hands out a new handle. *)
Theorem X21_install_fails_while_a_handle_is_live (w : ErrorReporter.World) :
  ErrorReporter.reachable w ->
  (ErrorReporter.installErrorReporter w
   = (ErrorReporter.Thrown "installErrorReporter was called multiple times.", w)
   /\ exists h, h < ErrorReporter.next_handle w
                /\ ~ In h (ErrorReporter.disposed w))
  \/ (fst (ErrorReporter.installErrorReporter w)
      = ErrorReporter.Returned (ErrorReporter.next_handle w)
      /\ forall h, h < ErrorReporter.next_handle w ->
                   In h (ErrorReporter.disposed w)).
Proof.
  intros Hr. destruct (reachable_invariant w Hr) as (I1 & _ & I3).
  unfold ErrorReporter.installErrorReporter.
  destruct (ErrorReporter.disposable w) as [h|] eqn:Ed.
  - left. split; [reflexivity|]. exists h. tauto.
  - right. split; [reflexivity|]. intros h Hh.
    destruct (I1 h Hh) as [Hin|Hc]; [assumption|discriminate].
Qed.

(** X22.  Only the current handle uninstalls the reporter: disposing a
    handle of an earlier installation, or the same handle a second time,
    changes nothing. *)
Theorem X22_stale_handles_are_inert
  (w : ErrorReporter.World) (current stale : nat) :
  ErrorReporter.reachable w ->
  ErrorReporter.disposable w = Some current ->
  stale < ErrorReporter.next_handle w ->
  stale <> current ->
  ErrorReporter.dispose stale w = w
  /\ ErrorReporter.dispose current (ErrorReporter.dispose current w)
     = ErrorReporter.dispose current w.
Proof.
  intros Hr Hcur Hlt Hne.
  destruct (reachable_invariant w Hr) as (I1 & _ & _).
  split.
  - unfold ErrorReporter.dispose.
    destruct (I1 stale Hlt) as [Hin|Hc]; [|congruence].
    apply disposed_mem in Hin. now rewrite Hin.
  - unfold ErrorReporter.dispose at 1.
    destruct (existsb (Nat.eqb current)
                (ErrorReporter.disposed (ErrorReporter.dispose current w)))
      eqn:E; [reflexivity|].
    exfalso. revert E. unfold ErrorReporter.dispose.
    destruct (existsb (Nat.eqb current) (ErrorReporter.disposed w)) eqn:E0.
    + now rewrite E0.
    + cbn. now rewrite Nat.eqb_refl.
Qed.

(** X23.  Disposing the current handle undoes the installation: the window
    listener and the atom subscription are gone, [disposable] is cleared,
    and the reporter can be installed again. *)
Theorem X23_dispose_undoes_install (w : ErrorReporter.World) (current : nat) :
  ErrorReporter.reachable w ->
  ErrorReporter.disposable w = Some current ->
  ErrorReporter.disposable (ErrorReporter.dispose current w) = None
  /\ ErrorReporter.rejection_listener (ErrorReporter.dispose current w) = false
  /\ ErrorReporter.exception_handlers (ErrorReporter.dispose current w) = []
  /\ fst (ErrorReporter.installErrorReporter (ErrorReporter.dispose current w))
     = ErrorReporter.Returned (ErrorReporter.next_handle w).
Proof.
  intros Hr Hcur.
  destruct (reachable_invariant w Hr) as (_ & _ & I3).
  rewrite Hcur in I3. destruct I3 as (_ & Hnot & _ & Hh).
  unfold ErrorReporter.dispose.
  destruct (existsb (Nat.eqb current) (ErrorReporter.disposed w)) eqn:E.
  - apply disposed_mem in E. contradiction.
  - cbn. rewrite Hh. cbn. rewrite Nat.eqb_refl. repeat split.
Qed.

Lemma installed_once_reachable : ErrorReporter.reachable installed_once.
Proof. apply ErrorReporter.reach_install, ErrorReporter.reach_initial. Defined.

Lemma installed_again_reachable : ErrorReporter.reachable installed_again.
Proof.
  apply ErrorReporter.reach_install.
  apply (ErrorReporter.reach_dispose installed_once 0).
  - exact installed_once_reachable.
  - cbn. lia.
Defined.

Lemma X20_handlers_registered_exactly_while_installed_witness :
  ErrorReporter.rejection_listener installed_again = true
  /\ ErrorReporter.exception_handlers installed_again = [1]
  /\ ~ In 1 (ErrorReporter.disposed installed_again).
Proof.
  exact (X20_handlers_registered_exactly_while_installed
           installed_again installed_again_reachable).
Defined.

Lemma X21_install_fails_while_a_handle_is_live_witness :
  (ErrorReporter.installErrorReporter installed_once
   = (ErrorReporter.Thrown "installErrorReporter was called multiple times.",
      installed_once)
   /\ exists h, h < ErrorReporter.next_handle installed_once
                /\ ~ In h (ErrorReporter.disposed installed_once))
  \/ (fst (ErrorReporter.installErrorReporter installed_once)
      = ErrorReporter.Returned (ErrorReporter.next_handle installed_once)
      /\ forall h, h < ErrorReporter.next_handle installed_once ->
                   In h (ErrorReporter.disposed installed_once)).
Proof.
  exact (X21_install_fails_while_a_handle_is_live
           installed_once installed_once_reachable).
Defined.

Lemma X22_stale_handles_are_inert_witness :
  ErrorReporter.dispose 0 installed_again = installed_again
  /\ ErrorReporter.dispose 1 (ErrorReporter.dispose 1 installed_again)
     = ErrorReporter.dispose 1 installed_again.
Proof.
  apply (X22_stale_handles_are_inert installed_again 1 0).
  - exact installed_again_reachable.
  - reflexivity.
  - cbn. lia.
  - discriminate.
Defined.

Lemma X23_dispose_undoes_install_witness :
  ErrorReporter.disposable (ErrorReporter.dispose 1 installed_again) = None
  /\ ErrorReporter.rejection_listener (ErrorReporter.dispose 1 installed_again)
     = false
  /\ ErrorReporter.exception_handlers (ErrorReporter.dispose 1 installed_again)
     = []
  /\ fst (ErrorReporter.installErrorReporter
            (ErrorReporter.dispose 1 installed_again))
     = ErrorReporter.Returned (ErrorReporter.next_handle installed_again).
Proof.
  apply (X23_dispose_undoes_install installed_again 1).
  - exact installed_again_reachable.
  - reflexivity.
Defined.

(** A second install in a row throws and leaves the world as it was. *)
Example install_twice :
  ErrorReporter.installErrorReporter installed_once
  = (ErrorReporter.Thrown "installErrorReporter was called multiple times.",
     installed_once).
Proof. reflexivity. Qed.
